(** * AI collection routing: the assignment resolver and its batch endpoint

    A shallow embedding of
    - [apps/worker/lib/autoAssignCollection.ts]
      ([ensureValidURL], [getAIModel], [buildPrompt], [autoAssignCollection]);
    - [apps/web/pages/api/v1/collections/ai-assign.ts] ([handler]).

    JavaScript strings are modelled by [string]: one character of the model
    stands for one code unit of the source string, so [String.length] is the
    source's [.length] and [slice] cuts at the same places.  The database is
    an explicit store passed through every call; [process.env] is a finite
    map from variable names to values. *)

From Stdlib Require Import ZArith Ascii String.
From stdpp Require Import base option list sorting gmap strings pretty.

Local Open Scope Z_scope.

(** ** Strings as the source uses them *)

Module JS.

(** The two characters the sources need that a literal cannot hold
    conveniently: the line feed and the double quote. *)
Definition nl : string := String "010"%char EmptyString.
Definition dq : string := String "034"%char EmptyString.

(** [Boolean(s)] on a string: every string but the empty one is truthy. *)
Definition truthy (s : string) : bool :=
  match s with
  | EmptyString => false
  | String _ _ => true
  end.

(** [Boolean(v)] on a value that is a string, [null] or [undefined]. *)
Definition truthy_opt (v : option string) : bool :=
  match v with
  | Some s => truthy s
  | None => false
  end.

(** [v || d] on such a value. *)
Definition or_else (v : option string) (d : string) : string :=
  match v with
  | Some s => if truthy s then s else d
  | None => d
  end.

(** [Array.prototype.join] on an array of strings. *)
Fixpoint join (sep : string) (parts : list string) : string :=
  match parts with
  | [] => ""
  | [p] => p
  | p :: rest => p +:+ sep +:+ join sep rest
  end.

(** The first [n] code units of a string. *)
Fixpoint prefix (n : nat) (s : string) : string :=
  match n, s with
  | S n', String c s' => String c (prefix n' s')
  | _, _ => ""
  end.

(** The string without its first [n] code units. *)
Fixpoint suffix (n : nat) (s : string) : string :=
  match n, s with
  | S n', String _ s' => suffix n' s'
  | _, _ => s
  end.

(** A relative index of [slice], clamped into [0 .. len] the way
    [String.prototype.slice] does: a negative index counts from the end. *)
Definition clamp (len i : Z) : Z :=
  if i <? 0 then Z.max (len + i) 0 else Z.min i len.

(** [s.slice(start, stop)]. *)
Definition slice (start stop : Z) (s : string) : string :=
  let len := Z.of_nat (String.length s) in
  let from := clamp len start in
  let to := clamp len stop in
  prefix (Z.to_nat (Z.max (to - from) 0)) (suffix (Z.to_nat from) s).

(** [s.replace(/\/$/, "")]: one trailing slash, when there is one, goes. *)
Fixpoint dropTrailingSlash (s : string) : string :=
  match s with
  | EmptyString => ""
  | String c EmptyString => if Ascii.eqb c "/"%char then "" else s
  | String c s' => String c (dropTrailingSlash s')
  end.

(** [s.replace(/^\//, "")]: one leading slash, when there is one, goes. *)
Definition dropLeadingSlash (s : string) : string :=
  match s with
  | String c s' => if Ascii.eqb c "/"%char then s' else s
  | EmptyString => ""
  end.

(** [s1] occurs in [s] as a contiguous run of code units. *)
Definition occurs_in (s1 s : string) : Prop :=
  ∃ before after : string, s = before +:+ s1 +:+ after.

End JS.

(** ** Provider resolution *)

(** [process.env]: a variable is absent or holds a string. *)
Abbreviation Env := (gmap string string).

(** The model handle [getAIModel] returns, one constructor per provider
    factory of the source with the arguments the source passes to it. *)
Inductive LanguageModelV1 : Type :=
| OpenAICompatible (baseURL name apiKey modelId : string)
| Azure (modelId : string)
| Anthropic (modelId : string)
| Ollama (baseURL modelId : string) (structuredOutputs : bool)
| OpenRouter (apiKey modelId : string)
| Perplexity (modelId : string).

(** How a call of the source ends: with a value, or with a thrown error. *)
Inductive Completion (A : Type) : Type :=
| Return (a : A)
| Throw (message : string).
Arguments Return {A} a.
Arguments Throw {A} message.

Definition ensureValidURL (base path : string) : string :=
  JS.dropTrailingSlash base +:+ "/" +:+ JS.dropLeadingSlash path.

(** [process.env.NAME] used as a condition. *)
Definition set_in (env : Env) (name : string) : bool :=
  JS.truthy_opt (env !! name).

(** [process.env.NAME] used as a value, after its condition held. *)
Definition value_of (env : Env) (name : string) : string :=
  default "" (env !! name).

Definition getAIModel (env : Env) : Completion LanguageModelV1 :=
  if set_in env "OPENAI_API_KEY" && set_in env "OPENAI_MODEL" then
    Return (OpenAICompatible
              (JS.or_else (env !! "CUSTOM_OPENAI_BASE_URL") "https://api.openai.com/v1")
              (JS.or_else (env !! "CUSTOM_OPENAI_NAME") "openai")
              (value_of env "OPENAI_API_KEY")
              (value_of env "OPENAI_MODEL"))
  else if set_in env "AZURE_API_KEY" && set_in env "AZURE_RESOURCE_NAME"
          && set_in env "AZURE_MODEL" then
    Return (Azure (value_of env "AZURE_MODEL"))
  else if set_in env "ANTHROPIC_API_KEY" && set_in env "ANTHROPIC_MODEL" then
    Return (Anthropic (value_of env "ANTHROPIC_MODEL"))
  else if set_in env "NEXT_PUBLIC_OLLAMA_ENDPOINT_URL" && set_in env "OLLAMA_MODEL" then
    Return (Ollama (ensureValidURL (value_of env "NEXT_PUBLIC_OLLAMA_ENDPOINT_URL") "api")
                   (value_of env "OLLAMA_MODEL") true)
  else if set_in env "OPENROUTER_API_KEY" && set_in env "OPENROUTER_MODEL" then
    Return (OpenRouter (value_of env "OPENROUTER_API_KEY")
                       (value_of env "OPENROUTER_MODEL"))
  else if set_in env "PERPLEXITY_API_KEY" then
    Return (Perplexity (JS.or_else (env !! "PERPLEXITY_MODEL") "sonar-pro"))
  else
    Throw "No AI provider configured".

(** ** The stored records *)

(** The record types [User], [Link] and [Collection] are generated by Prisma
    from a schema that is not among the sources; the three records below
    hold the fields the two sources read and write. *)

Module User.
(** Modelled from the spec: the type [User] of the Prisma client, with its
    identifier and the boolean preference [aiCollectionsEnabled]. *)
Record t : Type := mk { id : Z; aiCollectionsEnabled : bool }.
End User.

Module Collection.
(** Modelled from the spec: the type [Collection] of the Prisma client, a
    row with a display name, a description (read as a string by
    [buildPrompt]), its owner and the timestamp used for recency ordering;
    the unique integer [id] is the key the row is stored under. *)
Record t : Type := mk
  { name : string; description : string; ownerId : Z; updatedAt : Z }.
End Collection.

Module Link.
(** Modelled from the spec: the type [Link] of the Prisma client, a row with
    a URL, a name, an optional description, optional page text, the id of
    its collection and the latch [aiCollectionAssigned]; the [id] is the key
    the row is stored under.  An absent ([null]) value is [None]. *)
Record t : Type := mk
  { url : string;
    name : string;
    description : option string;
    textContent : option string;
    collectionId : Z;
    aiCollectionAssigned : bool }.

(** [data: { aiCollectionAssigned: true }]. *)
Definition latch (l : t) : t :=
  mk (url l) (name l) (description l) (textContent l) (collectionId l) true.

(** [data: { collectionId: c, aiCollectionAssigned: true }]. *)
Definition move (c : Z) (l : t) : t :=
  mk (url l) (name l) (description l) (textContent l) c true.
End Link.

(** The result of [findUnique] with [include: { collection: ... }]. *)
Module Loaded.
Record t : Type := mk
  { id : Z; link : Link.t; collection_id : Z; collection_name : string }.
End Loaded.

(** The projection [{ id, name, description }] of a collection. *)
Module Candidate.
Record t : Type := mk { id : Z; name : string; description : string }.
End Candidate.

Record AssignmentContext : Type := mkContext
  { metaDescription : option string; pageContent : option string }.

(** The store: the three tables the two sources read and write, each keyed
    by the primary key [id]. *)
Record DB : Type := mkDB
  { users : gmap Z bool;  (* the column [aiCollectionsEnabled] of each user *)
    collections : gmap Z Collection.t;
    links : gmap Z Link.t }.

(** ** Queries *)

(** [prisma.link.findUnique({ where: { id }, include: { collection } })].
    [collection] is a required relation: a row whose collection is missing
    makes the query fail instead of yielding [null] there. *)
Definition findUniqueLink (db : DB) (linkId : Z) : Completion (option Loaded.t) :=
  match links db !! linkId with
  | None => Return None
  | Some l =>
      match collections db !! Link.collectionId l with
      | Some c => Return (Some (Loaded.mk linkId l (Link.collectionId l) (Collection.name c)))
      | None => Throw "Inconsistent query result: Field collection is required to return data"
      end
  end.

(** [orderBy: { updatedAt: "desc" }]: the row on the left is at least as
    recent as the row on the right. *)
Definition newer_first (a b : Z * Collection.t) : Prop :=
  Collection.updatedAt b.2 ≤ Collection.updatedAt a.2.

Global Instance newer_first_dec a b : Decision (newer_first a b).
Proof. unfold newer_first. apply _. Defined.

Definition select_candidate (kv : Z * Collection.t) : Candidate.t :=
  Candidate.mk kv.1 (Collection.name kv.2) (Collection.description kv.2).

(** [prisma.collection.findMany({ where: { ownerId }, select: ...,
    orderBy: { updatedAt: "desc" }, take: 25 })]. *)
Definition owned_rows (db : DB) (owner : Z) : list (Z * Collection.t) :=
  merge_sort newer_first
    (filter (λ kv, Collection.ownerId kv.2 = owner) (map_to_list (collections db))).

Definition findManyCollections (db : DB) (owner : Z) : list Candidate.t :=
  select_candidate <$> take 25 (owned_rows db owner).

(** [prisma.link.update({ where: { id }, data })].  The call fails when no
    row has the id, and when the row it would write refers to a collection
    that does not exist (the foreign key of [collectionId]). *)
Definition updateLink (db : DB) (linkId : Z) (data : Link.t → Link.t)
  : Completion Link.t * DB :=
  match links db !! linkId with
  | None => (Throw "Record to update not found.", db)
  | Some l =>
      let l' := data l in
      match collections db !! Link.collectionId l' with
      | None => (Throw "Foreign key constraint failed", db)
      | Some _ => (Return l', mkDB (users db) (collections db) (<[linkId := l']> (links db)))
      end
  end.

(** ** The prompt *)

Definition renderCollection (collection : Candidate.t) : string :=
  pretty (Candidate.id collection) +:+ ": " +:+ Candidate.name collection +:+
  (if JS.truthy (Candidate.description collection)
   then " (" +:+ Candidate.description collection +:+ ")"
   else "").

Definition collectionList (collections : list Candidate.t) : string :=
  JS.join (JS.nl +:+ "-") (renderCollection <$> collections).

(** [[...].filter(Boolean)] on values that are strings, [null] or
    [undefined]: what is kept is a non-empty string. *)
Definition filterBoolean (fields : list (option string)) : list string :=
  default "" <$> filter (λ v, JS.truthy_opt v) fields.

Definition condensedContent (link : Loaded.t) (context : AssignmentContext) : string :=
  JS.slice 0 2000
    (JS.join JS.nl
       (filterBoolean
          [ Some (Link.name (Loaded.link link));
            Link.description (Loaded.link link);
            metaDescription context;
            pageContent context ])).

Definition buildPrompt (link : Loaded.t) (collections : list Candidate.t)
    (context : AssignmentContext) : string :=
  "You are a Linkwarden assistant that routes links into one of the existing collections." +:+ JS.nl +:+
  "Pick exactly one collection id from the provided list. Prefer the best topical match." +:+ JS.nl +:+
  "If nothing clearly matches, keep the current collection id " +:+
    pretty (Link.collectionId (Loaded.link link)) +:+ "." +:+ JS.nl +:+
  JS.nl +:+
  "Collections (id: name and optional description):" +:+ JS.nl +:+
  "-" +:+ collectionList collections +:+ JS.nl +:+
  JS.nl +:+
  "Link:" +:+ JS.nl +:+
  "- URL: " +:+ Link.url (Loaded.link link) +:+ JS.nl +:+
  "- Current collection: " +:+ Loaded.collection_name link +:+ JS.nl +:+
  "- Summary: " +:+ condensedContent link context +:+ JS.nl +:+
  JS.nl +:+
  "Respond with only JSON in the form {" +:+ JS.dq +:+ "collectionId" +:+ JS.dq +:+
    ": <id from the list>}.".

(** ** The assignment resolver *)

Section Resolver.

(** The structured-generation call [generateObject({ model, prompt, schema })]
    with the schema [{ collectionId: z.number().int() }]: it yields the
    integer of a reply that passes the schema, or throws (the request failed,
    or the reply does not match the schema). *)
Variable generateObject : LanguageModelV1 → string → Completion Z.

(** [process.env] of the running process. *)
Variable env : Env.

(** The body of the [try] block: [getAIModel()] is evaluated there, as the
    argument of the call, so its error is caught with the call's own. *)
Definition classify (prompt : string) : Completion Z :=
  match getAIModel env with
  | Return model => generateObject model prompt
  | Throw e => Throw e
  end.

Definition allowedIds (collections : list Candidate.t) : gset Z :=
  list_to_set (Candidate.id <$> collections).

Definition chosenId (collections : list Candidate.t) (object : Z) (link : Loaded.t) : Z :=
  if decide (object ∈ allowedIds collections)
  then object
  else Link.collectionId (Loaded.link link).

(** The result is [Return (Some id)] for a returned collection id,
    [Return None] for [undefined]; the store after the call comes with it.
    The [console.log] of the [catch] branch writes nothing to the store. *)
Definition autoAssignCollection (db : DB) (user : User.t) (linkId : Z)
    (context : AssignmentContext) : Completion (option Z) * DB :=
  if negb (User.aiCollectionsEnabled user) then (Return None, db) else
  match findUniqueLink db linkId with
  | Throw e => (Throw e, db)
  | Return None => (Return None, db)
  | Return (Some link) =>
      if Link.aiCollectionAssigned (Loaded.link link) then (Return None, db) else
      let collections := findManyCollections db (User.id user) in
      if (length collections =? 0)%nat then (Return None, db) else
      let prompt := buildPrompt link collections context in
      match classify prompt with
      | Throw _ => (Return None, db)
      | Return object =>
          let chosen := chosenId collections object link in
          if decide (chosen = Link.collectionId (Loaded.link link)) then
            match updateLink db (Loaded.id link) Link.latch with
            | (Throw e, db') => (Throw e, db')
            | (Return _, db') => (Return (Some (Link.collectionId (Loaded.link link))), db')
            end
          else
            match updateLink db (Loaded.id link) (Link.move chosen) with
            | (Throw e, db') => (Throw e, db')
            | (Return updated, db') => (Return (Some (Link.collectionId updated)), db')
            end
      end
  end.

(** ** The batch endpoint *)

(** The request as the handler sees it: its method, and what [verifyToken]
    (which is not part of these sources) answers for it: an error message,
    or a token carrying the user's id. *)
Record Request : Type := mkRequest
  { method : string; verifyToken : string + Z }.

Inductive Body : Type :=
| Message (response : string)
| Processed (processed : nat).

Record Response : Type := mkResponse { status : Z; body : Body }.

Definition findUniqueUser (db : DB) (userId : Z) : option User.t :=
  User.mk userId <$> users db !! userId.

(** The condition of the second 400 answer. *)
Definition anyProviderKey : bool :=
  set_in env "NEXT_PUBLIC_OLLAMA_ENDPOINT_URL" || set_in env "OPENAI_API_KEY"
  || set_in env "AZURE_API_KEY" || set_in env "ANTHROPIC_API_KEY"
  || set_in env "OPENROUTER_API_KEY" || set_in env "PERPLEXITY_API_KEY".

(** [where: { collection: { ownerId }, aiCollectionAssigned: false }]. *)
Definition eligible (db : DB) (owner : Z) (kv : Z * Link.t) : bool :=
  match collections db !! Link.collectionId kv.2 with
  | Some c => bool_decide (Collection.ownerId c = owner)
  | None => false
  end && negb (Link.aiCollectionAssigned kv.2).

(** [prisma.link.findMany({ where, select, take: 50 })]; the selected
    columns are read off the row.  No order is asked for: the rows come in
    the order the table hands them out. *)
Definition findManyLinks (db : DB) (owner : Z) : list (Z * Link.t) :=
  take 50 (filter (λ kv, eligible db owner kv) (map_to_list (links db))).

(** The context the handler passes for a selected row. *)
Definition contextOf (link : Link.t) : AssignmentContext :=
  mkContext (Link.description link) (JS.slice 0 2000 <$> Link.textContent link).

(** The [for ... of] loop with its counter. *)
Fixpoint assignEach (db : DB) (user : User.t) (rows : list (Z * Link.t))
    (processed : nat) : Completion nat * DB :=
  match rows with
  | [] => (Return processed, db)
  | link :: rest =>
      match autoAssignCollection db user link.1 (contextOf link.2) with
      | (Throw e, db') => (Throw e, db')
      | (Return _, db') => assignEach db' user rest (S processed)
      end
  end.

Definition handler (req : Request) (db : DB) : Completion Response * DB :=
  if negb (String.eqb (method req) "POST") then
    (Return (mkResponse 405 (Message "Method not allowed.")), db)
  else
  match verifyToken req with
  | inl token => (Return (mkResponse 401 (Message token)), db)
  | inr tokenId =>
      match findUniqueUser db tokenId with
      | None => (Return (mkResponse 404 (Message "User not found.")), db)
      | Some user =>
          if negb (User.aiCollectionsEnabled user) then
            (Return (mkResponse 400 (Message "AI collection routing is disabled.")), db)
          else if negb anyProviderKey then
            (Return (mkResponse 400 (Message "No AI provider configured.")), db)
          else
            match assignEach db user (findManyLinks db (User.id user)) 0 with
            | (Throw e, db') => (Throw e, db')
            | (Return processed, db') =>
                (Return (mkResponse 200 (Processed processed)), db')
            end
      end
  end.

End Resolver.

(** ** The provider slots, as a table

    The probe of [getAIModel] read as data: the slots in priority order,
    the variables each one tests, and the handle each one builds. *)

Inductive Slot : Type :=
| OpenAISlot | AzureSlot | AnthropicSlot | OllamaSlot | OpenRouterSlot | PerplexitySlot.

Definition priority : list Slot :=
  [OpenAISlot; AzureSlot; AnthropicSlot; OllamaSlot; OpenRouterSlot; PerplexitySlot].

(** The variable that holds a slot's API key, or its endpoint for Ollama. *)
Definition credential (s : Slot) : string :=
  match s with
  | OpenAISlot => "OPENAI_API_KEY"
  | AzureSlot => "AZURE_API_KEY"
  | AnthropicSlot => "ANTHROPIC_API_KEY"
  | OllamaSlot => "NEXT_PUBLIC_OLLAMA_ENDPOINT_URL"
  | OpenRouterSlot => "OPENROUTER_API_KEY"
  | PerplexitySlot => "PERPLEXITY_API_KEY"
  end.

(** The variable that holds a slot's model name. *)
Definition modelName (s : Slot) : string :=
  match s with
  | OpenAISlot => "OPENAI_MODEL"
  | AzureSlot => "AZURE_MODEL"
  | AnthropicSlot => "ANTHROPIC_MODEL"
  | OllamaSlot => "OLLAMA_MODEL"
  | OpenRouterSlot => "OPENROUTER_MODEL"
  | PerplexitySlot => "PERPLEXITY_MODEL"
  end.

(** The variables a slot tests before it is taken. *)
Definition required (s : Slot) : list string :=
  match s with
  | AzureSlot => [credential s; "AZURE_RESOURCE_NAME"; modelName s]
  | PerplexitySlot => [credential s]
  | _ => [credential s; modelName s]
  end.

Definition configured (env : Env) (s : Slot) : bool :=
  forallb (set_in env) (required s).

Definition handle (env : Env) (s : Slot) : LanguageModelV1 :=
  match s with
  | OpenAISlot =>
      OpenAICompatible
        (JS.or_else (env !! "CUSTOM_OPENAI_BASE_URL") "https://api.openai.com/v1")
        (JS.or_else (env !! "CUSTOM_OPENAI_NAME") "openai")
        (value_of env (credential s)) (value_of env (modelName s))
  | AzureSlot => Azure (value_of env (modelName s))
  | AnthropicSlot => Anthropic (value_of env (modelName s))
  | OllamaSlot =>
      Ollama (ensureValidURL (value_of env (credential s)) "api")
             (value_of env (modelName s)) true
  | OpenRouterSlot => OpenRouter (value_of env (credential s)) (value_of env (modelName s))
  | PerplexitySlot => Perplexity (JS.or_else (env !! modelName s) "sonar-pro")
  end.

(** First match in priority order, or the configuration error. *)
Definition firstConfigured (env : Env) : Completion LanguageModelV1 :=
  match List.find (configured env) priority with
  | Some s => Return (handle env s)
  | None => Throw "No AI provider configured"
  end.

Definition slot_of (m : LanguageModelV1) : Slot :=
  match m with
  | OpenAICompatible _ _ _ _ => OpenAISlot
  | Azure _ => AzureSlot
  | Anthropic _ => AnthropicSlot
  | Ollama _ _ _ => OllamaSlot
  | OpenRouter _ _ => OpenRouterSlot
  | Perplexity _ => PerplexitySlot
  end.

(** A chosen slot has both its key (or endpoint) and its model name set. *)
Definition chosen_has_key_and_model (env : Env) : Prop :=
  ∀ m, getAIModel env = Return m →
       set_in env (credential (slot_of m)) = true ∧
       set_in env (modelName (slot_of m)) = true.

(** ** The content block, as the specification words it *)

(** The fields that are neither absent nor empty, in their order. *)
Fixpoint kept (fields : list (option string)) : list string :=
  match fields with
  | [] => []
  | Some (String c s) :: rest => String c s :: kept rest
  | _ :: rest => kept rest
  end.

(** Name, description, meta-description and page content in this order,
    the empty and absent ones dropped, joined with newlines. *)
Definition joinedContent (name : string) (description metaDescription pageContent : option string)
  : string :=
  JS.join JS.nl (kept [Some name; description; metaDescription; pageContent]).

(** The first 2000 code units of the joined fields. *)
Definition contentBlock (name : string) (description metaDescription pageContent : option string)
  : string :=
  JS.prefix 2000 (joinedContent name description metaDescription pageContent).

(** A string of [n] copies of one character. *)
Fixpoint replicate_char (n : nat) (c : ascii) : string :=
  match n with
  | O => ""
  | S n' => String c (replicate_char n' c)
  end.

(** ** Outcomes of a cycle and of a batch, as the claims name them *)

(** The store with the row of one Link replaced. *)
Definition with_link (db : DB) (linkId : Z) (l : Link.t) : DB :=
  mkDB (users db) (collections db) (<[linkId := l]> (links db)).

(** The foreign key of a stored Link holds: its collection exists. *)
Definition collection_present (db : DB) (linkId : Z) : Prop :=
  ∀ l, links db !! linkId = Some l → is_Some (collections db !! Link.collectionId l).

(** The store after the resolver ran over the given rows one by one. *)
Definition storeAfter (generateObject : LanguageModelV1 → string → Completion Z)
    (env : Env) (user : User.t) (db : DB) (rows : list (Z * Link.t)) : DB :=
  foldl (λ d row, (autoAssignCollection generateObject env d user row.1 (contextOf row.2)).2)
        db rows.

(** A configuration error never yields a 200 answer of the batch endpoint. *)
Definition configuration_error_is_fatal
    (generateObject : LanguageModelV1 → string → Completion Z)
    (env : Env) (req : Request) (db : DB) : Prop :=
  (∃ e, getAIModel env = Throw e) →
  ∀ r db', handler generateObject env req db = (Return r, db') → status r ≠ 200.

(** The loaded Link the resolver works on when the stored row is [l] and
    its collection is [c]. *)
Definition loaded (linkId : Z) (l : Link.t) (c : Collection.t) : Loaded.t :=
  Loaded.mk linkId l (Link.collectionId l) (Collection.name c).

(** The paths on which a cycle takes no decision. *)
Inductive NoDecision (generateObject : LanguageModelV1 → string → Completion Z)
    (env : Env) (db : DB) (user : User.t) (linkId : Z) (context : AssignmentContext)
  : Prop :=
| FeatureDisabled :
    User.aiCollectionsEnabled user = false →
    NoDecision generateObject env db user linkId context
| LinkNotFound :
    links db !! linkId = None →
    NoDecision generateObject env db user linkId context
| AlreadyLatched l :
    links db !! linkId = Some l → Link.aiCollectionAssigned l = true →
    NoDecision generateObject env db user linkId context
| NoCandidates :
    findManyCollections db (User.id user) = [] →
    NoDecision generateObject env db user linkId context
| ClassificationFailed l c e :
    links db !! linkId = Some l →
    collections db !! Link.collectionId l = Some c →
    classify generateObject env
      (buildPrompt (loaded linkId l c) (findManyCollections db (User.id user)) context)
    = Throw e →
    NoDecision generateObject env db user linkId context.

(** ** A small store to run the sources on

    User 7 has the feature on and owns collections 1 ("Recipes") and
    2 ("Work", described as "job search"); collection 3 belongs to user 8.
    Links 10, 11 and 13 sit in collection 1, Link 12 in collection 3. *)

Module Scenario.

Definition user7 : User.t := User.mk 7 true.

Definition jobLink : Link.t :=
  Link.mk "https://example.org/jobs/42" "" (Some "React job posting at a startup")
          None 1 false.

Definition recipes : Collection.t := Collection.mk "Recipes" "" 7 100.
Definition work : Collection.t := Collection.mk "Work" "job search" 7 50.
Definition other : Collection.t := Collection.mk "Other" "" 8 500.

Definition soupLink : Link.t :=
  Link.mk "https://example.org/soup" "Soup" None (Some "Leek soup") 1 false.

Definition failLink : Link.t :=
  Link.mk "https://example.org/fail" "Fail" None None 1 false.

Definition elseLink : Link.t :=
  Link.mk "https://example.org/else" "Else" None None 3 false.

Definition db0 : DB :=
  mkDB (<[7 := true]> (<[8 := true]> ∅))
       (<[1 := recipes]> (<[2 := work]> (<[3 := other]> ∅)))
       (<[10 := jobLink]>
          (<[11 := soupLink]>
             (<[12 := elseLink]>
                (<[13 := failLink]> ∅)))).

(** One fully configured slot. *)
Definition env0 : Env := <["OPENAI_API_KEY" := "sk"]> (<["OPENAI_MODEL" := "gpt"]> ∅).

(** A key without its model name. *)
Definition envKeyOnly : Env := <["OPENAI_API_KEY" := "sk"]> ∅.

(** A model endpoint that gives the same answer to every prompt. *)
Definition always (reply : Completion Z) : LanguageModelV1 → string → Completion Z :=
  λ _ _, reply.

(** A model endpoint that fails on the prompts about one URL and answers
    [reply] on the others. *)
Definition failing_on (url : string) (reply : Z) : LanguageModelV1 → string → Completion Z :=
  λ _ prompt,
    match String.index 0 url prompt with
    | Some _ => Throw "request failed"
    | None => Return reply
    end.

(** A Link whose description is 1500 code units long. *)
Definition longLink : Link.t :=
  Link.mk "https://example.org/long" "" (Some (replicate_char 1500 "x")) None 1 false.

Definition noContext : AssignmentContext := mkContext None None.

Definition post : Request := mkRequest "POST" (inr 7).

End Scenario.

(** The description occurs twice, as two consecutive lines, in the content
    block of a Link the batch endpoint hands to the resolver. *)
Definition description_twice_in_block (linkId : Z) (row : Link.t) (c : Collection.t) : Prop :=
  ∀ d, Link.description row = Some d → d ≠ "" →
       JS.occurs_in (d +:+ JS.nl +:+ d)
                    (condensedContent (loaded linkId row c) (contextOf row)).

(** ** The two tests behind [ensureValidURL]'s patterns *)

(** [/\/$/.test(s)]: the last code unit is a slash. *)
Fixpoint endsWithSlash (s : string) : bool :=
  match s with
  | EmptyString => false
  | String c EmptyString => Ascii.eqb c "/"%char
  | String _ s' => endsWithSlash s'
  end.

(** [/^\//.test(s)]: the first code unit is a slash. *)
Definition startsWithSlash (s : string) : bool :=
  match s with
  | String c _ => Ascii.eqb c "/"%char
  | EmptyString => false
  end.

(** ** What the configuration is read from *)

(** The variables [getAIModel] reads, in the order it reads them. *)
Definition providerVariables : list string :=
  [ "OPENAI_API_KEY"; "OPENAI_MODEL"; "CUSTOM_OPENAI_BASE_URL"; "CUSTOM_OPENAI_NAME";
    "AZURE_API_KEY"; "AZURE_RESOURCE_NAME"; "AZURE_MODEL";
    "ANTHROPIC_API_KEY"; "ANTHROPIC_MODEL";
    "NEXT_PUBLIC_OLLAMA_ENDPOINT_URL"; "OLLAMA_MODEL";
    "OPENROUTER_API_KEY"; "OPENROUTER_MODEL";
    "PERPLEXITY_API_KEY"; "PERPLEXITY_MODEL" ].

(** ** How the store may differ after the resolver ran for one user *)

(** A Link row before and after: its URL, name, description and text are
    the same; a latched row is the same row; a row that differs is latched;
    its collection is the one it had or a collection of [owner]. *)
Definition row_evolves (db : DB) (owner : Z) (l l' : Link.t) : Prop :=
  Link.url l' = Link.url l
  ∧ Link.name l' = Link.name l
  ∧ Link.description l' = Link.description l
  ∧ Link.textContent l' = Link.textContent l
  ∧ (Link.aiCollectionAssigned l = true → l' = l)
  ∧ (l' = l ∨ Link.aiCollectionAssigned l' = true)
  ∧ (Link.collectionId l' = Link.collectionId l
     ∨ ∃ c, collections db !! Link.collectionId l' = Some c ∧ Collection.ownerId c = owner).

(** The users and the collections are the same, no Link appeared or
    disappeared, and every Link row evolved as above. *)
Definition evolves (owner : Z) (db db' : DB) : Prop :=
  users db' = users db
  ∧ collections db' = collections db
  ∧ ∀ j, match links db !! j with
         | None => links db' !! j = None
         | Some l => ∃ l', links db' !! j = Some l' ∧ row_evolves db owner l l'
         end.

(** ** The settings page

    The callback [assignExistingLinks] of [AiCollectionsSettings], modelled
    by the calls it makes, in order: the state setters, the toasts and the
    request.  What the awaited request answers is an argument. *)

Module Settings.












End Settings.

(** * Properties *)

(** ** Strings *)

Lemma app_string_cons (c : ascii) (s1 s2 : string) :
  String c s1 +:+ s2 = String c (s1 +:+ s2).
Proof. reflexivity. Qed.

Lemma app_string_empty_l (s : string) : "" +:+ s = s.
Proof. reflexivity. Qed.

Lemma length_app_string (s1 s2 : string) :
  String.length (s1 +:+ s2) = (String.length s1 + String.length s2)%nat.
Proof.
  induction s1 as [|c s1 IH]; [done |].
  rewrite app_string_cons. simpl. by rewrite IH.
Qed.

Lemma app_string_assoc (s1 s2 s3 : string) :
  (s1 +:+ s2) +:+ s3 = s1 +:+ s2 +:+ s3.
Proof.
  induction s1 as [|c s1 IH]; [done |].
  rewrite !app_string_cons. by rewrite IH.
Qed.

Lemma app_string_empty_r (s : string) : s +:+ "" = s.
Proof.
  induction s as [|c s IH]; [done |].
  rewrite app_string_cons. by rewrite IH.
Qed.

Lemma length_prefix (n : nat) (s : string) :
  String.length (JS.prefix n s) = (n `min` String.length s)%nat.
Proof.
  revert s; induction n as [|n IH]; intros [|c s]; simpl; try done.
  by rewrite IH.
Qed.

Lemma prefix_suffix (n : nat) (s : string) : JS.prefix n s +:+ JS.suffix n s = s.
Proof.
  revert s; induction n as [|n IH]; intros [|c s]; simpl; try done.
  rewrite app_string_cons. by rewrite IH.
Qed.

Lemma prefix_all (n : nat) (s : string) :
  (String.length s ≤ n)%nat → JS.prefix n s = s.
Proof.
  revert s; induction n as [|n IH]; intros [|c s]; simpl; intros Hle; try done.
  - lia.
  - rewrite IH; [done | lia].
Qed.

Lemma prefix_app (n : nat) (s1 s2 : string) :
  (String.length s1 ≤ n)%nat →
  JS.prefix n (s1 +:+ s2) = s1 +:+ JS.prefix (n - String.length s1) s2.
Proof.
  revert n; induction s1 as [|c s1 IH]; intros n; simpl; intros Hle.
  - rewrite !app_string_empty_l. by rewrite Nat.sub_0_r.
  - destruct n as [|n]; [lia |]. rewrite !app_string_cons. simpl.
    rewrite IH; [done | lia].
Qed.

(** [s.slice(0, n)] for a non-negative [n] is the first [n] code units. *)
Lemma slice_from_start (n : Z) (s : string) :
  0 ≤ n → JS.slice 0 n s = JS.prefix (Z.to_nat n) s.
Proof.
  intros Hn. unfold JS.slice, JS.clamp. simpl.
  destruct (n <? 0) eqn:Hneg; [apply Z.ltb_lt in Hneg; lia |].
  rewrite (Z.min_l 0) by lia. simpl. rewrite Z.sub_0_r.
  destruct (Z.le_ge_cases n (Z.of_nat (String.length s))) as [Hle | Hge].
  - rewrite (Z.min_l n), Z.max_l by lia. done.
  - rewrite (Z.min_r n), Z.max_l by lia. rewrite Nat2Z.id.
    rewrite !prefix_all; [done | lia | lia].
Qed.

Lemma length_slice_from_start (n : Z) (s : string) :
  0 ≤ n → (String.length (JS.slice 0 n s) ≤ Z.to_nat n)%nat.
Proof. intros Hn. rewrite slice_from_start, length_prefix by done. lia. Qed.

Lemma length_replicate_char (n : nat) (c : ascii) :
  String.length (replicate_char n c) = n.
Proof. induction n as [|n IH]; simpl; [done | by rewrite IH]. Qed.

Lemma occurs_in_length (s1 s : string) :
  JS.occurs_in s1 s → (String.length s1 ≤ String.length s)%nat.
Proof. intros (b & a & ->). rewrite !length_app_string. lia. Qed.

Lemma occurs_in_skip (x a s : string) : JS.occurs_in x s → JS.occurs_in x (a +:+ s).
Proof.
  intros (before & after & ->). exists (a +:+ before), after.
  by rewrite app_string_assoc.
Qed.

Lemma occurs_in_three (a b c after : string) :
  JS.occurs_in (a +:+ b +:+ c) (a +:+ b +:+ c +:+ after).
Proof. exists "", after. by rewrite app_string_empty_l, !app_string_assoc. Qed.

(** ** What [filter(Boolean)] keeps *)

Lemma filterBoolean_kept (fields : list (option string)) :
  filterBoolean fields = kept fields.
Proof.
  unfold filterBoolean. induction fields as [|[[|c s]|] rest IH]; [done | | |].
  - rewrite filter_cons_False by (simpl; tauto). exact IH.
  - rewrite filter_cons_True by done. rewrite fmap_cons, IH. reflexivity.
  - rewrite filter_cons_False by (simpl; tauto). exact IH.
Qed.

Lemma kept_nonempty_head (s : string) (rest : list (option string)) :
  s ≠ "" → kept (Some s :: rest) = s :: kept rest.
Proof. destruct s; [done | reflexivity]. Qed.

(** ** The provider probe *)

Example ensureValidURL_ex :
  ensureValidURL "http://localhost:11434/" "api" = "http://localhost:11434/api".
Proof. reflexivity. Qed.

Example getAIModel_openai_first :
  getAIModel (<["PERPLEXITY_API_KEY" := "p"]>
                (<["OPENAI_MODEL" := "gpt"]> (<["OPENAI_API_KEY" := "sk"]> ∅)))
  = Return (OpenAICompatible "https://api.openai.com/v1" "openai" "sk" "gpt").
Proof. vm_compute. reflexivity. Qed.

Example getAIModel_none : getAIModel ∅ = Throw "No AI provider configured".
Proof. vm_compute. reflexivity. Qed.

(** C4, as the claim words it, fails: with only [PERPLEXITY_API_KEY] set the
    Perplexity slot is chosen although no model name is configured. *)
Lemma getAIModel_perplexity_without_model :
  ¬ chosen_has_key_and_model (<["PERPLEXITY_API_KEY" := "pplx-key"]> ∅).
Proof.
  intros Hclaim.
  destruct (Hclaim (Perplexity "sonar-pro")) as [_ Hmodel].
  - vm_compute. reflexivity.
  - vm_compute in Hmodel. discriminate.
Qed.

(** C4 (amended): [getAIModel] is the first-match probe over the slots in
    the order OpenAI-compatible, Azure, Anthropic, Ollama, OpenRouter,
    Perplexity; a slot is taken only when every variable it requires is
    non-empty; every slot but Perplexity requires its key (or endpoint) and
    its model name, Perplexity requires its key alone and falls back to the
    model name "sonar-pro"; with no slot configured the call fails with
    "No AI provider configured".  The result is a function of the
    configuration alone. *)
Theorem getAIModel_first_configured (env : Env) :
  getAIModel env = firstConfigured env
  ∧ (∀ s, s ≠ PerplexitySlot → credential s ∈ required s ∧ modelName s ∈ required s)
  ∧ required PerplexitySlot = [credential PerplexitySlot]
  ∧ (∀ m, getAIModel env = Return m →
          configured env (slot_of m) = true ∧ m = handle env (slot_of m))
  ∧ (getAIModel env = Throw "No AI provider configured"
     ↔ ∀ s, configured env s = false)
  ∧ (set_in env "PERPLEXITY_MODEL" = false →
     handle env PerplexitySlot = Perplexity "sonar-pro").
Proof.
  assert (Hfirst : getAIModel env = firstConfigured env).
  { unfold getAIModel, firstConfigured, priority. simpl List.find.
    unfold configured. cbn [required forallb credential modelName].
    rewrite !andb_true_r, ?andb_assoc.
    repeat match goal with
           | |- context [if ?b then Return _ else _] =>
               lazymatch b with
               | andb _ _ => destruct b eqn:?
               | set_in _ _ => destruct b eqn:?
               end; [reflexivity |]
           end.
    reflexivity. }
  split; [exact Hfirst |].
  split; [intros [] Hs; try done; simpl; set_solver |].
  split; [reflexivity |].
  split.
  { intros m Hm. rewrite Hfirst in Hm. unfold firstConfigured in Hm.
    destruct (List.find (configured env) priority) as [s|] eqn:Hfind; [| done].
    apply List.find_some in Hfind as [_ Hconf].
    injection Hm as <-. by destruct s. }
  split.
  { rewrite Hfirst. unfold firstConfigured.
    destruct (List.find (configured env) priority) as [s|] eqn:Hfind.
    - split; [done |]. intros Hnone.
      apply List.find_some in Hfind as [_ Hconf]. rewrite Hnone in Hconf. done.
    - split; [| done]. intros _ s.
      apply (List.find_none _ _ Hfind s). unfold priority. destruct s; simpl; tauto. }
  intros Hmodel. unfold handle, set_in in *. simpl modelName in *.
  destruct (env !! "PERPLEXITY_MODEL") as [[|c v]|]; simpl in *; done.
Qed.

(** ** The prompt *)

(** X23: the prompt reads five fields of the loaded Link (its URL, name,
    description and collection id, and the name of its collection) and
    nothing else of it: two loaded Links that agree on these give the same
    prompt, whatever their ids, latches, stored texts and joined collection
    ids are. *)
Lemma buildPrompt_reads (l1 l2 : Loaded.t) (cs : list Candidate.t) (x : AssignmentContext) :
  Link.url (Loaded.link l1) = Link.url (Loaded.link l2) →
  Link.name (Loaded.link l1) = Link.name (Loaded.link l2) →
  Link.description (Loaded.link l1) = Link.description (Loaded.link l2) →
  Link.collectionId (Loaded.link l1) = Link.collectionId (Loaded.link l2) →
  Loaded.collection_name l1 = Loaded.collection_name l2 →
  buildPrompt l1 cs x = buildPrompt l2 cs x.
Proof.
  intros Hurl Hname Hdesc Hcol Hcname.
  unfold buildPrompt, condensedContent. by rewrite Hurl, Hname, Hdesc, Hcol, Hcname.
Qed.

(** C7: the content block is name, description, meta-description and page
    content in this order, the empty and absent ones dropped, joined with
    newlines and cut to the first 2000 code units wherever that falls; its
    length never exceeds 2000, and it is the block the prompt carries. *)
Theorem condensedContent_spec (link : Loaded.t) (collections : list Candidate.t)
    (context : AssignmentContext) :
  let joined := joinedContent (Link.name (Loaded.link link))
                  (Link.description (Loaded.link link))
                  (metaDescription context) (pageContent context) in
  let block := condensedContent link context in
  block = contentBlock (Link.name (Loaded.link link)) (Link.description (Loaded.link link))
            (metaDescription context) (pageContent context)
  ∧ (String.length block ≤ 2000)%nat
  ∧ String.length block = (2000 `min` String.length joined)%nat
  ∧ joined = block +:+ JS.suffix 2000 joined
  ∧ JS.occurs_in ("- Summary: " +:+ block +:+ JS.nl) (buildPrompt link collections context).
Proof.
  intros joined block.
  assert (Hblock : block = JS.prefix 2000 joined).
  { unfold block, condensedContent. rewrite slice_from_start by lia.
    by rewrite filterBoolean_kept. }
  split; [exact Hblock |].
  split; [rewrite Hblock, length_prefix; lia |].
  split; [by rewrite Hblock, length_prefix |].
  split; [by rewrite Hblock, prefix_suffix |].
  unfold buildPrompt. fold block.
  do 23 apply occurs_in_skip. apply occurs_in_three.
Qed.

(** ** The candidate set *)

Global Instance newer_first_total : Total newer_first.
Proof. intros a b. unfold newer_first. lia. Qed.

Global Instance newer_first_trans : Transitive newer_first.
Proof. intros a b c. unfold newer_first. lia. Qed.

Lemma elem_of_owned_rows (db : DB) (owner : Z) (kv : Z * Collection.t) :
  kv ∈ owned_rows db owner ↔
  collections db !! kv.1 = Some kv.2 ∧ Collection.ownerId kv.2 = owner.
Proof.
  unfold owned_rows. rewrite merge_sort_Permutation, list_elem_of_filter.
  destruct kv as [i c]. rewrite elem_of_map_to_list. simpl. tauto.
Qed.

Lemma owned_rows_sorted (db : DB) (owner : Z) :
  StronglySorted newer_first (owned_rows db owner).
Proof. apply StronglySorted_merge_sort; apply _. Qed.

Lemma elem_of_candidate_ids (db : DB) (owner id : Z) :
  id ∈ Candidate.id <$> findManyCollections db owner →
  ∃ c, collections db !! id = Some c ∧ Collection.ownerId c = owner.
Proof.
  unfold findManyCollections. rewrite <- list_fmap_compose.
  intros ([i c] & -> & Hin)%list_elem_of_fmap.
  apply elem_of_take in Hin as (n & Hn & _).
  apply list_elem_of_lookup_2 in Hn. apply elem_of_owned_rows in Hn.
  exists c. exact Hn.
Qed.

Lemma elem_of_allowedIds (collections : list Candidate.t) (object : Z) :
  object ∈ allowedIds collections ↔ object ∈ Candidate.id <$> collections.
Proof. unfold allowedIds. apply elem_of_list_to_set. Qed.

Lemma length_findManyCollections (db : DB) (owner : Z) :
  (length (findManyCollections db owner) ≤ 25)%nat.
Proof. unfold findManyCollections. rewrite length_fmap, length_take. lia. Qed.

(** The candidate rows are the 25 most recently updated of the owner's
    collections: a row left out is no newer than any row taken. *)
Lemma candidates_most_recent (db : DB) (owner : Z) (taken left : Z * Collection.t) :
  taken ∈ take 25 (owned_rows db owner) →
  left ∈ owned_rows db owner → left ∉ take 25 (owned_rows db owner) →
  newer_first taken left.
Proof.
  intros Htaken Hleft Hnot.
  pose proof (owned_rows_sorted db owner) as Hsorted.
  rewrite <- (take_drop 25 (owned_rows db owner)) in Hsorted, Hleft.
  apply elem_of_app in Hleft as [Hleft | Hleft]; [done |].
  by eapply StronglySorted_app_1_elem_of.
Qed.

(** ** One cycle of the resolver *)

Section Cycle.

Variable generateObject : LanguageModelV1 → string → Completion Z.
Variable env : Env.

Local Abbreviation run := (autoAssignCollection generateObject env).

Lemma findUniqueLink_found (db : DB) (linkId : Z) (l : Link.t) (c : Collection.t) :
  links db !! linkId = Some l →
  collections db !! Link.collectionId l = Some c →
  findUniqueLink db linkId = Return (Some (loaded linkId l c)).
Proof. intros Hl Hc. unfold findUniqueLink. by rewrite Hl, Hc. Qed.

Lemma updateLink_ok (db : DB) (linkId : Z) (l : Link.t) (data : Link.t → Link.t) :
  links db !! linkId = Some l →
  is_Some (collections db !! Link.collectionId (data l)) →
  updateLink db linkId data = (Return (data l), with_link db linkId (data l)).
Proof. intros Hl [c Hc]. unfold updateLink. by rewrite Hl, Hc. Qed.

(** The commit step: a cycle that gets a reply writes the chosen id and the
    latch in one update and returns the chosen id. *)
Lemma run_commit (db : DB) (user : User.t) (linkId : Z) (context : AssignmentContext)
    (l : Link.t) (c : Collection.t) (object : Z) :
  User.aiCollectionsEnabled user = true →
  links db !! linkId = Some l →
  collections db !! Link.collectionId l = Some c →
  Link.aiCollectionAssigned l = false →
  findManyCollections db (User.id user) ≠ [] →
  classify generateObject env
    (buildPrompt (loaded linkId l c) (findManyCollections db (User.id user)) context)
  = Return object →
  let final := chosenId (findManyCollections db (User.id user)) object (loaded linkId l c) in
  run db user linkId context
  = (Return (Some final), with_link db linkId (Link.move final l)).
Proof.
  intros Hen Hl Hc Hlatch Hcands Hreply final.
  unfold autoAssignCollection.
  rewrite Hen, (findUniqueLink_found _ _ _ _ Hl Hc). simpl negb. cbv iota.
  change (Loaded.link (loaded linkId l c)) with l.
  change (Loaded.id (loaded linkId l c)) with linkId.
  rewrite Hlatch.
  destruct (findManyCollections db (User.id user)) as [|c0 cs] eqn:Hfind; [done |].
  simpl length. simpl Nat.eqb. cbv iota. rewrite Hreply. cbv zeta.
  fold final. destruct (decide (final = Link.collectionId l)) as [Hsame | Hmoved].
  - rewrite (updateLink_ok _ _ l) by (done || (simpl; eauto)).
    rewrite Hsame. reflexivity.
  - rewrite (updateLink_ok _ _ l); [reflexivity | done |].
    simpl. unfold final, chosenId in *.
    change (Loaded.link (loaded linkId l c)) with l in *.
    destruct (decide (object ∈ allowedIds (c0 :: cs))) as [Hin | Hout]; [| done].
    rewrite elem_of_allowedIds, <- Hfind in Hin.
    apply elem_of_candidate_ids in Hin as (c' & Hc' & _). eauto.
Qed.

(** Whatever a cycle does, it either leaves the store as it was and returns
    no collection id, or it went through the commit step. *)
Lemma run_cases (db : DB) (user : User.t) (linkId : Z) (context : AssignmentContext) :
  (run db user linkId context = (Return None, db)
   ∧ NoDecision generateObject env db user linkId context)
  ∨ (∃ e l, run db user linkId context = (Throw e, db)
            ∧ links db !! linkId = Some l
            ∧ collections db !! Link.collectionId l = None)
  ∨ (∃ l c object,
        User.aiCollectionsEnabled user = true
        ∧ links db !! linkId = Some l
        ∧ collections db !! Link.collectionId l = Some c
        ∧ Link.aiCollectionAssigned l = false
        ∧ findManyCollections db (User.id user) ≠ []
        ∧ classify generateObject env
            (buildPrompt (loaded linkId l c) (findManyCollections db (User.id user)) context)
          = Return object).
Proof.
  destruct (User.aiCollectionsEnabled user) eqn:Hen; cycle 1.
  { left. split; [| by constructor]. unfold autoAssignCollection. by rewrite Hen. }
  destruct (links db !! linkId) as [l|] eqn:Hl; cycle 1.
  { left. split; [| by constructor 2].
    unfold autoAssignCollection, findUniqueLink. by rewrite Hen, Hl. }
  destruct (collections db !! Link.collectionId l) as [c|] eqn:Hc; cycle 1.
  { right; left. eexists _, l. split; [| done].
    unfold autoAssignCollection, findUniqueLink. by rewrite Hen, Hl, Hc. }
  destruct (Link.aiCollectionAssigned l) eqn:Hlatch.
  { left. split; [| by econstructor 3].
    unfold autoAssignCollection. rewrite Hen, (findUniqueLink_found _ _ _ _ Hl Hc).
    simpl. by rewrite Hlatch. }
  destruct (findManyCollections db (User.id user)) as [|c0 cs] eqn:Hfind.
  { left. split; [| by constructor 4].
    unfold autoAssignCollection. rewrite Hen, (findUniqueLink_found _ _ _ _ Hl Hc).
    simpl. by rewrite Hlatch, Hfind. }
  destruct (classify generateObject env (buildPrompt (loaded linkId l c) (c0 :: cs) context))
    as [object | e] eqn:Hreply.
  - right; right. by exists l, c, object.
  - left. split; [| econstructor 5; [done | done | by rewrite Hfind]].
    unfold autoAssignCollection. rewrite Hen, (findUniqueLink_found _ _ _ _ Hl Hc).
    simpl. rewrite Hlatch, Hfind. simpl.
    change (Loaded.mk linkId l (Link.collectionId l) (Collection.name c))
      with (loaded linkId l c).
    by rewrite Hreply.
Qed.

End Cycle.

(** ** The claims about one cycle *)

Section CycleClaims.

Variable generateObject : LanguageModelV1 → string → Completion Z.
Variable env : Env.

Local Abbreviation run := (autoAssignCollection generateObject env).

(** C1: a cycle that reaches the classification step and gets a reply ends
    with the Link latched; its collection id is the returned id when that
    id is one of the candidates' ids and the id it had before otherwise;
    the function returns that final id. *)
Theorem autoAssignCollection_decision
    (db : DB) (user : User.t) (linkId : Z) (context : AssignmentContext)
    (l : Link.t) (c : Collection.t) (object : Z) :
  User.aiCollectionsEnabled user = true →
  links db !! linkId = Some l →
  collections db !! Link.collectionId l = Some c →
  Link.aiCollectionAssigned l = false →
  findManyCollections db (User.id user) ≠ [] →
  classify generateObject env
    (buildPrompt (loaded linkId l c) (findManyCollections db (User.id user)) context)
  = Return object →
  ∃ final l',
    (run db user linkId context).1 = Return (Some final)
    ∧ links (run db user linkId context).2 !! linkId = Some l'
    ∧ Link.collectionId l' = final
    ∧ Link.aiCollectionAssigned l' = true
    ∧ (object ∈ Candidate.id <$> findManyCollections db (User.id user) → final = object)
    ∧ (object ∉ Candidate.id <$> findManyCollections db (User.id user) →
       final = Link.collectionId l).
Proof.
  intros Hen Hl Hc Hlatch Hcands Hreply.
  rewrite (run_commit _ _ _ _ _ _ _ _ _ Hen Hl Hc Hlatch Hcands Hreply).
  eexists _, _. split; [reflexivity |]. split; [apply lookup_insert_eq |].
  split; [reflexivity |]. split; [reflexivity |].
  unfold chosenId. change (Loaded.link (loaded linkId l c)) with l.
  rewrite <- elem_of_allowedIds.
  destruct (decide (object ∈ allowedIds (findManyCollections db (User.id user)))); done.
Qed.

(** C2: on every path without a decision (feature off, Link not found,
    Link already latched, no candidate, failure of the generation call or
    of its schema validation) the store is left as it was, so the latch is
    not set, and the function returns [undefined] (for a stored Link whose
    collection exists, as the schema's foreign key has it). *)
Theorem autoAssignCollection_no_decision
    (db : DB) (user : User.t) (linkId : Z) (context : AssignmentContext) :
  NoDecision generateObject env db user linkId context →
  (run db user linkId context).2 = db
  ∧ (collection_present db linkId → (run db user linkId context).1 = Return None).
Proof.
  intros Hno.
  destruct (run_cases generateObject env db user linkId context)
    as [[Hrun _] | [(e & l & Hrun & Hl & Hc) | (l & c & object & Hen & Hl & Hc & Hlatch & Hcands & Hreply)]].
  - by rewrite Hrun.
  - rewrite Hrun. split; [done |]. intros Hfk.
    destruct (Hfk l Hl) as [c' Hc']. congruence.
  - exfalso. destruct Hno as [Hoff | Hnone | l' Hl' Hlatched | Hempty | l' c' e Hl' Hc' Hfail];
      congruence.
Qed.

(** C3: after a cycle the Link's collection id is one of the candidates'
    ids or the id it had before; the candidates are at most 25 collections
    of the requesting user, most recently updated first, so a collection id
    written by the cycle names a collection of that user; nothing is asked
    about who owns the Link. *)
Theorem autoAssignCollection_permitted
    (db : DB) (user : User.t) (linkId : Z) (context : AssignmentContext) (l : Link.t) :
  links db !! linkId = Some l →
  let db' := (run db user linkId context).2 in
  let rows := take 25 (owned_rows db (User.id user)) in
  (∃ l', links db' !! linkId = Some l'
         ∧ (Link.collectionId l' = Link.collectionId l
            ∨ (Link.collectionId l' ∈ Candidate.id <$> findManyCollections db (User.id user)
               ∧ ∃ c, collections db' !! Link.collectionId l' = Some c
                      ∧ Collection.ownerId c = User.id user)))
  ∧ findManyCollections db (User.id user) = select_candidate <$> rows
  ∧ (length rows ≤ 25)%nat
  ∧ (∀ kv, kv ∈ rows →
           collections db !! kv.1 = Some kv.2 ∧ Collection.ownerId kv.2 = User.id user)
  ∧ StronglySorted newer_first rows
  ∧ (∀ taken left, taken ∈ rows → left ∈ owned_rows db (User.id user) → left ∉ rows →
                   newer_first taken left)
  ∧ collections db' = collections db
  ∧ (∀ j, j ≠ linkId → links db' !! j = links db !! j).
Proof.
  intros Hl db' rows.
  assert (Hrows : ∀ kv, kv ∈ rows →
            collections db !! kv.1 = Some kv.2 ∧ Collection.ownerId kv.2 = User.id user).
  { intros kv (n & Hn & _)%elem_of_take.
    by apply elem_of_owned_rows, list_elem_of_lookup_2 with n. }
  assert (Hsorted : StronglySorted newer_first rows).
  { pose proof (owned_rows_sorted db (User.id user)) as Hs.
    rewrite <- (take_drop 25) in Hs. by apply StronglySorted_app_1_l in Hs. }
  assert (Hlen : (length rows ≤ 25)%nat) by (unfold rows; rewrite length_take; lia).
  assert (Hafter :
    (∃ l', links db' !! linkId = Some l'
         ∧ (Link.collectionId l' = Link.collectionId l
            ∨ (Link.collectionId l' ∈ Candidate.id <$> findManyCollections db (User.id user)
               ∧ ∃ c, collections db' !! Link.collectionId l' = Some c
                      ∧ Collection.ownerId c = User.id user)))
    ∧ collections db' = collections db
    ∧ (∀ j, j ≠ linkId → links db' !! j = links db !! j)).
  { unfold db'.
    destruct (run_cases generateObject env db user linkId context)
      as [[Hrun _] | [(e & l0 & Hrun & _) | (l0 & c & object & Hen & Hl0 & Hc & Hlatch & Hcands & Hreply)]].
    - rewrite Hrun. simpl. split; [exists l; split; [done | by left] | done].
    - rewrite Hrun. simpl. split; [exists l; split; [done | by left] | done].
    - assert (l0 = l) as -> by congruence.
      rewrite (run_commit _ _ _ _ _ _ _ _ _ Hen Hl Hc Hlatch Hcands Hreply). simpl.
      split; [| split; [done | by intros j Hj; apply lookup_insert_ne]].
      eexists. split; [apply lookup_insert_eq |]. simpl.
      unfold chosenId. change (Loaded.link (loaded linkId l c)) with l.
      destruct (decide (object ∈ allowedIds (findManyCollections db (User.id user))))
        as [Hin | Hout]; [right | by left].
      apply elem_of_allowedIds in Hin. split; [done |].
      by apply elem_of_candidate_ids. }
  destruct Hafter as (Hlink & Hcols & Hothers).
  split; [exact Hlink |]. split; [reflexivity |]. split; [exact Hlen |].
  split; [exact Hrows |]. split; [exact Hsorted |].
  split; [| split; [exact Hcols | exact Hothers]].
  intros taken left. apply candidates_most_recent.
Qed.

(** C8: a second run on the same Link changes nothing more: the store after
    two runs is the store after one, and once a first run has completed its
    cycle every later run on that Link, whatever the model would answer,
    returns [undefined] and leaves the store as it is. *)
Theorem autoAssignCollection_idempotent
    (db : DB) (user : User.t) (linkId : Z) (context : AssignmentContext) :
  let first := run db user linkId context in
  (run first.2 user linkId context).2 = first.2
  ∧ (∀ final, first.1 = Return (Some final) →
      ∀ generateObject' context',
        autoAssignCollection generateObject' env first.2 user linkId context'
        = (Return None, first.2)).
Proof.
  intros first. unfold first.
  destruct (run_cases generateObject env db user linkId context)
    as [[Hrun _] | [(e & l0 & Hrun & _) | (l & c & object & Hen & Hl & Hc & Hlatch & Hcands & Hreply)]].
  - rewrite !Hrun. simpl. rewrite Hrun. done.
  - rewrite !Hrun. simpl. rewrite Hrun. done.
  - rewrite (run_commit _ _ _ _ _ _ _ _ _ Hen Hl Hc Hlatch Hcands Hreply). simpl.
    set (final := chosenId _ _ _).
    assert (Hlatched : ∀ g x,
              autoAssignCollection g env (with_link db linkId (Link.move final l)) user linkId x
              = (Return None, with_link db linkId (Link.move final l))).
    { intros g x.
      destruct (run_cases g env (with_link db linkId (Link.move final l)) user linkId x)
        as [[Hrun _] | [(e & l1 & _ & Hl1 & Hc1) | (l1 & c1 & o1 & _ & Hl1 & _ & Hlatch1 & _)]].
      - done.
      - exfalso. simpl in Hl1, Hc1. rewrite lookup_insert_eq in Hl1.
        injection Hl1 as <-. simpl in Hc1. unfold final, chosenId in Hc1.
        change (Loaded.link (loaded linkId l c)) with l in Hc1.
        destruct (decide (object ∈ allowedIds (findManyCollections db (User.id user))))
          as [Hin | Hout]; [| congruence].
        apply elem_of_allowedIds, elem_of_candidate_ids in Hin as (c' & Hc' & _).
        congruence.
      - exfalso. simpl in Hl1. rewrite lookup_insert_eq in Hl1.
        injection Hl1 as <-. done. }
    split; [by rewrite Hlatched |]. intros _ _ g x. apply Hlatched.
Qed.

End CycleClaims.

(** ** The batch *)

Section Batch.

Variable generateObject : LanguageModelV1 → string → Completion Z.
Variable env : Env.

Local Abbreviation run := (autoAssignCollection generateObject env).

(** A cycle on a Link whose collection exists does not throw. *)
Lemma run_returns (db : DB) (user : User.t) (linkId : Z) (context : AssignmentContext) :
  collection_present db linkId →
  ∃ r, (run db user linkId context).1 = Return r.
Proof.
  intros Hfk.
  destruct (run_cases generateObject env db user linkId context)
    as [[Hrun _] | [(e & l & _ & Hl & Hc) | (l & c & object & Hen & Hl & Hc & Hlatch & Hcands & Hreply)]].
  - rewrite Hrun. eauto.
  - destruct (Hfk l Hl) as [c Hc']. congruence.
  - rewrite (run_commit _ _ _ _ _ _ _ _ _ Hen Hl Hc Hlatch Hcands Hreply). simpl. eauto.
Qed.

(** A cycle keeps the collections, the users and every other Link. *)
Lemma run_frame (db : DB) (user : User.t) (linkId : Z) (context : AssignmentContext) :
  collections (run db user linkId context).2 = collections db
  ∧ users (run db user linkId context).2 = users db
  ∧ ∀ j, j ≠ linkId → links (run db user linkId context).2 !! j = links db !! j.
Proof.
  destruct (run_cases generateObject env db user linkId context)
    as [[Hrun _] | [(e & l & Hrun & _) | (l & c & object & Hen & Hl & Hc & Hlatch & Hcands & Hreply)]].
  - by rewrite Hrun.
  - by rewrite Hrun.
  - rewrite (run_commit _ _ _ _ _ _ _ _ _ Hen Hl Hc Hlatch Hcands Hreply). simpl.
    split; [done |]. split; [done |]. intros j Hj. by apply lookup_insert_ne.
Qed.

(** A cycle keeps the foreign key of every stored Link. *)
Lemma run_keeps_present (db : DB) (user : User.t) (linkId j : Z) (context : AssignmentContext) :
  collection_present db j →
  collection_present (run db user linkId context).2 j.
Proof.
  intros Hfk.
  destruct (run_cases generateObject env db user linkId context)
    as [[Hrun _] | [(e & l & Hrun & _) | (l & c & object & Hen & Hl & Hc & Hlatch & Hcands & Hreply)]].
  - by rewrite Hrun.
  - by rewrite Hrun.
  - rewrite (run_commit _ _ _ _ _ _ _ _ _ Hen Hl Hc Hlatch Hcands Hreply).
    unfold collection_present. simpl. intros l'.
    destruct (decide (linkId = j)) as [<- | Hne].
    + rewrite lookup_insert_eq. intros [= <-]. simpl.
      unfold chosenId. change (Loaded.link (loaded linkId l c)) with l.
      destruct (decide (object ∈ allowedIds (findManyCollections db (User.id user))))
        as [Hin | Hout]; [| eauto].
      apply elem_of_allowedIds, elem_of_candidate_ids in Hin as (c' & Hc' & _). eauto.
    + rewrite lookup_insert_ne by done. apply Hfk.
Qed.

(** With no provider resolved, no cycle writes anything. *)
Lemma run_without_provider (db : DB) (user : User.t) (linkId : Z)
    (context : AssignmentContext) (e : string) :
  getAIModel env = Throw e →
  (run db user linkId context).2 = db.
Proof.
  intros Hconf.
  destruct (run_cases generateObject env db user linkId context)
    as [[Hrun _] | [(e' & l & Hrun & _) | (l & c & object & _ & _ & _ & _ & _ & Hreply)]].
  - by rewrite Hrun.
  - by rewrite Hrun.
  - unfold classify in Hreply. rewrite Hconf in Hreply. done.
Qed.

(** The loop counts every row it is given and never stops early. *)
Lemma assignEach_counts (db : DB) (user : User.t) (rows : list (Z * Link.t)) (n : nat) :
  (∀ row, row ∈ rows → collection_present db row.1) →
  assignEach generateObject env db user rows n
  = (Return (n + length rows)%nat, storeAfter generateObject env user db rows).
Proof.
  revert db n. induction rows as [|row rows IH]; intros db n Hfk.
  - simpl. by rewrite Nat.add_0_r.
  - simpl assignEach. unfold storeAfter. simpl foldl. fold (storeAfter generateObject env user).
    destruct (run_returns db user row.1 (contextOf row.2)) as [r Hr];
      [apply Hfk; left |].
    destruct (run db user row.1 (contextOf row.2)) as [res db'] eqn:Hrun.
    simpl in Hr. subst res. simpl.
    rewrite IH.
    + f_equal. f_equal. simpl. lia.
    + intros row' Hrow'.
      replace db' with (run db user row.1 (contextOf row.2)).2 by (by rewrite Hrun).
      apply run_keeps_present, Hfk. by right.
Qed.

Lemma storeAfter_without_provider (db : DB) (user : User.t) (rows : list (Z * Link.t))
    (e : string) :
  getAIModel env = Throw e →
  storeAfter generateObject env user db rows = db.
Proof.
  intros Hconf. unfold storeAfter. induction rows as [|row rows IH] using rev_ind; [done |].
  rewrite foldl_snoc, IH. by eapply run_without_provider.
Qed.

End Batch.

(** The rows the batch endpoint selects. *)
Lemma elem_of_findManyLinks (db : DB) (owner : Z) (row : Z * Link.t) :
  row ∈ findManyLinks db owner →
  links db !! row.1 = Some row.2
  ∧ Link.aiCollectionAssigned row.2 = false
  ∧ ∃ c, collections db !! Link.collectionId row.2 = Some c ∧ Collection.ownerId c = owner.
Proof.
  unfold findManyLinks. intros (n & Hn & _)%elem_of_take.
  apply list_elem_of_lookup_2, list_elem_of_filter in Hn as [Hel Hin].
  destruct row as [i l]. apply elem_of_map_to_list in Hin. simpl.
  unfold eligible in Hel. simpl in Hel.
  destruct (collections db !! Link.collectionId l) as [c|]; [| done].
  apply andb_prop_elim in Hel as [Hown Hlatch].
  apply bool_decide_unpack in Hown. apply negb_prop_elim in Hlatch.
  split; [done |]. split; [by destruct (Link.aiCollectionAssigned l) | eauto].
Qed.

Lemma findManyLinks_present (db : DB) (owner : Z) (row : Z * Link.t) :
  row ∈ findManyLinks db owner → collection_present db row.1.
Proof.
  intros (Hl & _ & c & Hc & _)%elem_of_findManyLinks l' Hl'.
  assert (l' = row.2) as -> by congruence. eauto.
Qed.

Lemma findManyLinks_complete (db : DB) (owner linkId : Z) (l : Link.t) :
  links db !! linkId = Some l → eligible db owner (linkId, l) = true →
  (linkId, l) ∈ findManyLinks db owner ∨ length (findManyLinks db owner) = 50%nat.
Proof.
  intros Hl Hel. unfold findManyLinks.
  set (all := filter _ _).
  destruct (decide (length all ≤ 50)%nat) as [Hle | Hgt].
  - left. rewrite take_ge by done. apply list_elem_of_filter. split.
    + by rewrite Hel.
    + by apply elem_of_map_to_list.
  - right. rewrite length_take. lia.
Qed.

(** ** The claims about the batch endpoint *)

Section BatchClaims.

Variable generateObject : LanguageModelV1 → string → Completion Z.
Variable env : Env.

Lemma anyProviderKey_needed :
  anyProviderKey env = false → getAIModel env = Throw "No AI provider configured".
Proof.
  unfold anyProviderKey, getAIModel. intros Hnone.
  repeat (apply orb_false_elim in Hnone as [Hnone ?]).
  repeat match goal with H : set_in env _ = false |- _ => rewrite H; clear H end.
  reflexivity.
Qed.

Lemma handler_runs (req : Request) (db : DB) (userId : Z) :
  method req = "POST" → verifyToken req = inr userId →
  users db !! userId = Some true → anyProviderKey env = true →
  handler generateObject env req db
  = (Return (mkResponse 200 (Processed (length (findManyLinks db userId)))),
     storeAfter generateObject env (User.mk userId true) db (findManyLinks db userId)).
Proof.
  intros Hm Htok Huser Hkey. unfold handler, findUniqueUser.
  rewrite Hm, Htok, Huser, Hkey. simpl.
  rewrite assignEach_counts; [done |].
  intros row. apply findManyLinks_present.
Qed.

(** C5 (amended): for a POST of a known user the batch endpoint answers 400
    and touches no Link when the feature is off for the user or when none
    of the six key (or endpoint) variables is set, which is a case where
    [getAIModel] would fail; otherwise it answers 200 with a processed
    count.  An error of [getAIModel] inside a cycle is caught there with the
    failures of the generation call: the Links stay as they were. *)
Theorem handler_preconditions (req : Request) (db : DB) (userId : Z) (enabled : bool) :
  method req = "POST" → verifyToken req = inr userId →
  users db !! userId = Some enabled →
  (enabled = false →
   handler generateObject env req db
   = (Return (mkResponse 400 (Message "AI collection routing is disabled.")), db))
  ∧ (enabled = true → anyProviderKey env = false →
     handler generateObject env req db
     = (Return (mkResponse 400 (Message "No AI provider configured.")), db)
     ∧ getAIModel env = Throw "No AI provider configured")
  ∧ (enabled = true → anyProviderKey env = true →
     ∃ db',
       handler generateObject env req db
       = (Return (mkResponse 200 (Processed (length (findManyLinks db userId)))), db')
       ∧ ((∃ e, getAIModel env = Throw e) → db' = db)).
Proof.
  intros Hm Htok Huser.
  split; [| split].
  - intros ->. unfold handler, findUniqueUser. by rewrite Hm, Htok, Huser.
  - intros -> Hkey. split; [| by apply anyProviderKey_needed].
    unfold handler, findUniqueUser. by rewrite Hm, Htok, Huser, Hkey.
  - intros -> Hkey. eexists. split; [by apply handler_runs |].
    intros [e He]. by eapply storeAfter_without_provider.
Qed.

(** C6: the batch endpoint takes at most 50 Links that sit in a collection
    of the authenticated user and are not latched (all of them when there
    are at most 50), runs the resolver over them one after the other, and
    answers 200 with a processed count equal to the number of rows it went
    through, whatever each cycle did. *)
Theorem handler_processed (req : Request) (db : DB) (userId : Z) :
  method req = "POST" → verifyToken req = inr userId →
  users db !! userId = Some true → anyProviderKey env = true →
  let selected := findManyLinks db userId in
  handler generateObject env req db
  = (Return (mkResponse 200 (Processed (length selected))),
     storeAfter generateObject env (User.mk userId true) db selected)
  ∧ (length selected ≤ 50)%nat
  ∧ (∀ row, row ∈ selected →
        links db !! row.1 = Some row.2
        ∧ Link.aiCollectionAssigned row.2 = false
        ∧ ∃ c, collections db !! Link.collectionId row.2 = Some c
               ∧ Collection.ownerId c = userId)
  ∧ (∀ linkId l, links db !! linkId = Some l → eligible db userId (linkId, l) = true →
        (linkId, l) ∈ selected ∨ length selected = 50%nat).
Proof.
  intros Hm Htok Huser Hkey selected.
  split; [by apply handler_runs |].
  split; [unfold selected, findManyLinks; rewrite length_take; lia |].
  split; [intros row; apply elem_of_findManyLinks |].
  intros linkId l. apply findManyLinks_complete.
Qed.

End BatchClaims.

(** C5, as the claim words it, fails: with a key set and no model name
    [getAIModel] fails in every cycle, yet the batch endpoint answers 200
    with a processed count of 3 and leaves the Links as they were. *)
Lemma configuration_error_recovered_per_link :
  ¬ configuration_error_is_fatal (Scenario.always (Return 2)) Scenario.envKeyOnly
      Scenario.post Scenario.db0.
Proof.
  intros Hfatal.
  refine (Hfatal _ (mkResponse 200 (Processed 3)) Scenario.db0 _ _).
  - exists "No AI provider configured". vm_compute. reflexivity.
  - vm_compute. reflexivity.
  - reflexivity.
Qed.

(** The batch scenario: three eligible Links, the model call fails for one
    of them; three are counted and two are latched. *)
Example batch_scenario :
  let result := handler (Scenario.failing_on "https://example.org/fail" 2) Scenario.env0
                        Scenario.post Scenario.db0 in
  result.1 = Return (mkResponse 200 (Processed 3))
  ∧ Link.aiCollectionAssigned <$> links result.2 !! 10 = Some true
  ∧ Link.aiCollectionAssigned <$> links result.2 !! 11 = Some true
  ∧ Link.aiCollectionAssigned <$> links result.2 !! 13 = Some false
  ∧ Link.collectionId <$> links result.2 !! 10 = Some 2.
Proof. vm_compute. repeat split; reflexivity. Qed.

(** ** The store while the loop runs *)

Section Loop.

Variable generateObject : LanguageModelV1 → string → Completion Z.
Variable env : Env.

Lemma storeAfter_snoc (user : User.t) (db : DB) (rows : list (Z * Link.t)) (row : Z * Link.t) :
  storeAfter generateObject env user db (rows ++ [row])
  = (autoAssignCollection generateObject env
       (storeAfter generateObject env user db rows) user row.1 (contextOf row.2)).2.
Proof. unfold storeAfter. by rewrite foldl_snoc. Qed.

(** The loop keeps the collections and the Links it has not come to. *)
Lemma storeAfter_frame (user : User.t) (db : DB) (rows : list (Z * Link.t)) :
  collections (storeAfter generateObject env user db rows) = collections db
  ∧ ∀ j, j ∉ rows.*1 →
         links (storeAfter generateObject env user db rows) !! j = links db !! j.
Proof.
  induction rows as [|row rows [IHc IHl]] using rev_ind; [done |].
  rewrite storeAfter_snoc.
  destruct (run_frame generateObject env (storeAfter generateObject env user db rows)
              user row.1 (contextOf row.2)) as (Hc & _ & Hl).
  split; [by rewrite Hc |].
  intros j Hj. rewrite fmap_app, elem_of_app in Hj.
  rewrite Hl, IHl; [done | tauto |].
  intros ->. apply Hj. right. simpl. left.
Qed.

Lemma storeAfter_keeps_present (user : User.t) (db : DB) (rows : list (Z * Link.t)) (j : Z) :
  collection_present db j →
  collection_present (storeAfter generateObject env user db rows) j.
Proof.
  intros Hfk. induction rows as [|row rows IH] using rev_ind; [done |].
  rewrite storeAfter_snoc. by apply run_keeps_present.
Qed.

(** The loop over the first rows, then over the others. *)
Lemma assignEach_app (db : DB) (user : User.t) (pre rest : list (Z * Link.t)) (n : nat) :
  (∀ row, row ∈ pre → collection_present db row.1) →
  assignEach generateObject env db user (pre ++ rest) n
  = assignEach generateObject env (storeAfter generateObject env user db pre) user rest
      (n + length pre)%nat.
Proof.
  revert db n. induction pre as [|row pre IH]; intros db n Hfk.
  - simpl. by rewrite Nat.add_0_r.
  - simpl app. simpl assignEach.
    unfold storeAfter. simpl foldl. fold (storeAfter generateObject env user).
    destruct (run_returns generateObject env db user row.1 (contextOf row.2)) as [r Hr];
      [apply Hfk; left |].
    destruct (autoAssignCollection generateObject env db user row.1 (contextOf row.2))
      as [res db'] eqn:Hrun.
    simpl in Hr. subst res. simpl.
    rewrite IH.
    + f_equal. simpl. lia.
    + intros row' Hrow'.
      replace db' with
        (autoAssignCollection generateObject env db user row.1 (contextOf row.2)).2
        by (by rewrite Hrun).
      apply run_keeps_present, Hfk. by right.
Qed.

End Loop.

Lemma findManyLinks_NoDup (db : DB) (owner : Z) : NoDup (findManyLinks db owner).*1.
Proof.
  apply sublist_NoDup with (map_to_list (links db)).*1; [apply NoDup_fst_map_to_list |].
  apply fmap_sublist. unfold findManyLinks.
  etrans; [apply sublist_take | apply sublist_filter].
Qed.

(** ** The context the batch endpoint passes *)

Lemma length_condensedContent (link : Loaded.t) (context : AssignmentContext) :
  (String.length (condensedContent link context) ≤ 2000)%nat.
Proof. unfold condensedContent. by apply (length_slice_from_start 2000). Qed.

Lemma condensedContent_joined (link : Loaded.t) (context : AssignmentContext) :
  condensedContent link context
  = JS.prefix 2000 (joinedContent (Link.name (Loaded.link link))
                      (Link.description (Loaded.link link))
                      (metaDescription context) (pageContent context)).
Proof.
  unfold condensedContent, joinedContent.
  rewrite slice_from_start by lia. by rewrite filterBoolean_kept.
Qed.

(** The joined fields when the description comes twice. *)
Lemma joinedContent_twice (name d : string) (page : option string) :
  d ≠ "" →
  joinedContent name (Some d) (Some d) page
  = (if JS.truthy name then name +:+ JS.nl else "")
    +:+ (d +:+ JS.nl +:+ d)
    +:+ (if JS.truthy (default "" page) then JS.nl +:+ default "" page else "").
Proof.
  intros Hd. unfold joinedContent.
  destruct d as [|cd d]; [done |].
  destruct name as [|cn name]; destruct page as [[|cp page]|]; simpl;
    rewrite ?app_string_empty_l, ?app_string_empty_r, ?app_string_assoc; reflexivity.
Qed.

(** C10, as the claim words it, fails: a description of 1500 code units
    does not fit twice under the cap of 2000, so the second copy is cut. *)
Lemma long_description_cut :
  ¬ description_twice_in_block 14 Scenario.longLink Scenario.recipes.
Proof.
  intros Htwice.
  specialize (Htwice (replicate_char 1500 "x") eq_refl).
  apply occurs_in_length in Htwice; [| done].
  pose proof (length_condensedContent
                (loaded 14 Scenario.longLink Scenario.recipes)
                (contextOf Scenario.longLink)) as Hcap.
  rewrite !length_app_string, length_replicate_char in Htwice.
  simpl String.length in Htwice. lia.
Qed.

(** C10 (amended): the batch endpoint passes the stored description as the
    meta-description and the first 2000 code units of the stored text as the
    page content, and the resolver loads the very row the endpoint selected;
    so for a Link with a non-empty description the text the content block is
    cut from carries the description twice, as two consecutive lines, and
    the block, its first 2000 code units, carries both copies whenever they
    end within those 2000. *)
Theorem handler_context_repeats_description
    (generateObject : LanguageModelV1 → string → Completion Z) (env : Env)
    (db0 : DB) (userId : Z) (pre post : list (Z * Link.t))
    (linkId : Z) (row : Link.t) (c : Collection.t) (d : string) :
  findManyLinks db0 userId = pre ++ (linkId, row) :: post →
  collections db0 !! Link.collectionId row = Some c →
  Link.description row = Some d → d ≠ "" →
  let user := User.mk userId true in
  let db := storeAfter generateObject env user db0 pre in
  let context := contextOf row in
  let page := default "" (pageContent context) in
  let head := if JS.truthy (Link.name row) then Link.name row +:+ JS.nl else "" in
  let tail := if JS.truthy page then JS.nl +:+ page else "" in
  let joined := head +:+ (d +:+ JS.nl +:+ d) +:+ tail in
  let block := condensedContent (loaded linkId row c) context in
  assignEach generateObject env db0 user (findManyLinks db0 userId) 0
  = match autoAssignCollection generateObject env db user linkId context with
    | (Throw e, db') => (Throw e, db')
    | (Return _, db') => assignEach generateObject env db' user post (S (length pre))
    end
  ∧ findUniqueLink db linkId = Return (Some (loaded linkId row c))
  ∧ metaDescription context = Link.description row
  ∧ pageContent context = JS.prefix 2000 <$> Link.textContent row
  ∧ (String.length page ≤ 2000)%nat
  ∧ block = JS.prefix 2000 joined
  ∧ ((String.length head + (2 * String.length d + 1) ≤ 2000)%nat →
     JS.occurs_in (d +:+ JS.nl +:+ d) block).
Proof.
  intros Hsel Hc Hdesc Hd user db context page head tail joined block.
  assert (Hin : ∀ r, r ∈ pre ++ (linkId, row) :: post → r ∈ findManyLinks db0 userId)
    by (intros r; by rewrite Hsel).
  assert (Hrow : links db !! linkId = Some row).
  { destruct (storeAfter_frame generateObject env user db0 pre) as [_ Hl].
    unfold db. rewrite Hl.
    - apply (elem_of_findManyLinks db0 userId (linkId, row)), Hin. set_solver.
    - pose proof (findManyLinks_NoDup db0 userId) as Hnd.
      rewrite Hsel, fmap_app, NoDup_app in Hnd. destruct Hnd as (_ & Hsep & _).
      intros Hpre. apply (Hsep linkId Hpre). simpl. left. }
  assert (Hcol : collections db !! Link.collectionId row = Some c).
  { destruct (storeAfter_frame generateObject env user db0 pre) as [Hcs _].
    unfold db. by rewrite Hcs. }
  assert (Hpage : pageContent context = JS.prefix 2000 <$> Link.textContent row).
  { unfold context, contextOf. cbn [pageContent].
    destruct (Link.textContent row) as [t|]; [| done].
    cbn [fmap option_fmap option_map]. by rewrite slice_from_start by lia. }
  assert (Hblock : block = JS.prefix 2000 joined).
  { unfold block. rewrite condensedContent_joined.
    change (Loaded.link (loaded linkId row c)) with row.
    change (metaDescription context) with (Link.description row).
    by rewrite Hdesc, joinedContent_twice. }
  split.
  { rewrite Hsel, assignEach_app; [reflexivity |].
    intros r Hr. apply (findManyLinks_present db0 userId), Hin. set_solver. }
  split; [by apply findUniqueLink_found |].
  split; [reflexivity |].
  split; [exact Hpage |].
  split.
  { unfold page. rewrite Hpage. destruct (Link.textContent row) as [t|].
    - change (String.length (JS.prefix 2000 t) ≤ 2000)%nat. rewrite length_prefix. lia.
    - change (0 ≤ 2000)%nat. lia. }
  split; [exact Hblock |].
  intros Hfits. rewrite Hblock. unfold joined.
  rewrite prefix_app by lia.
  rewrite prefix_app by (rewrite !length_app_string; simpl String.length; lia).
  apply occurs_in_skip. eexists "", _. by rewrite app_string_empty_l.
Qed.

(** ** The theorems at work on the small store *)

Import Scenario.

(** The first example scenario: the model answers 2, a candidate. *)
Lemma autoAssignCollection_decision_witness :
  ∃ final l',
    (autoAssignCollection (always (Return 2)) env0 db0 user7 10 noContext).1
    = Return (Some final)
    ∧ links (autoAssignCollection (always (Return 2)) env0 db0 user7 10 noContext).2 !! 10
      = Some l'
    ∧ Link.collectionId l' = final
    ∧ Link.aiCollectionAssigned l' = true
    ∧ (2 ∈ Candidate.id <$> findManyCollections db0 (User.id user7) → final = 2)
    ∧ (2 ∉ Candidate.id <$> findManyCollections db0 (User.id user7) →
       final = Link.collectionId jobLink).
Proof.
  apply (autoAssignCollection_decision (always (Return 2)) env0 db0 user7 10 noContext
           jobLink recipes 2);
    vm_compute; (reflexivity || discriminate).
Defined.

(** The second example scenario: the model answers 99, not a candidate. *)
Example autoAssignCollection_hallucinated_id :
  let result := autoAssignCollection (always (Return 99)) env0 db0 user7 10 noContext in
  result.1 = Return (Some 1)
  ∧ links result.2 !! 10 = Some (Link.latch jobLink).
Proof. vm_compute. split; reflexivity. Qed.

(** A failed model call: nothing is written. *)
Lemma autoAssignCollection_no_decision_witness :
  (autoAssignCollection (always (Throw "timeout")) env0 db0 user7 10 noContext).2 = db0
  ∧ (collection_present db0 10 →
     (autoAssignCollection (always (Throw "timeout")) env0 db0 user7 10 noContext).1
     = Return None).
Proof.
  apply (autoAssignCollection_no_decision (always (Throw "timeout")) env0 db0 user7 10
           noContext).
  apply (ClassificationFailed _ _ _ _ _ _ jobLink recipes "timeout");
    vm_compute; reflexivity.
Defined.

(** Link 12 sits in a collection of user 8; run for user 7 it can only move
    into one of user 7's collections. *)
Lemma autoAssignCollection_permitted_witness :
  ∃ l', links (autoAssignCollection (always (Return 2)) env0 db0 user7 12 noContext).2 !! 12
        = Some l'
        ∧ (Link.collectionId l' = Link.collectionId elseLink
           ∨ (Link.collectionId l' ∈ Candidate.id <$> findManyCollections db0 (User.id user7)
              ∧ ∃ c, collections
                       (autoAssignCollection (always (Return 2)) env0 db0 user7 12 noContext).2
                     !! Link.collectionId l' = Some c
                     ∧ Collection.ownerId c = User.id user7)).
Proof.
  refine (proj1 (autoAssignCollection_permitted (always (Return 2)) env0 db0 user7 12
                   noContext elseLink _)).
  vm_compute. reflexivity.
Defined.

Example autoAssignCollection_foreign_link :
  let result := autoAssignCollection (always (Return 2)) env0 db0 user7 12 noContext in
  result.1 = Return (Some 2)
  ∧ links result.2 !! 12 = Some (Link.move 2 elseLink)
  ∧ Collection.ownerId <$> collections result.2 !! 2 = Some 7.
Proof. vm_compute. repeat split; reflexivity. Qed.

(** A user without collections: no decision, the latch stays off. *)
Example autoAssignCollection_no_collections :
  autoAssignCollection (always (Return 2)) env0 db0 (User.mk 9 true) 10 noContext
  = (Return None, db0).
Proof. vm_compute. reflexivity. Qed.

(** After Link 10 has been routed, a second run is a no-op even if the
    model would now answer otherwise. *)
Lemma autoAssignCollection_idempotent_witness :
  autoAssignCollection (always (Return 1)) env0
    (autoAssignCollection (always (Return 2)) env0 db0 user7 10 noContext).2
    user7 10 (contextOf jobLink)
  = (Return None, (autoAssignCollection (always (Return 2)) env0 db0 user7 10 noContext).2).
Proof.
  refine (proj2 (autoAssignCollection_idempotent (always (Return 2)) env0 db0 user7 10
                   noContext) 2 _ (always (Return 1)) (contextOf jobLink)).
  vm_compute. reflexivity.
Defined.

Lemma getAIModel_first_configured_witness :
  configured env0 OpenAISlot = true
  ∧ OpenAICompatible "https://api.openai.com/v1" "openai" "sk" "gpt"
    = handle env0 OpenAISlot.
Proof.
  refine (proj1 (proj2 (proj2 (proj2 (getAIModel_first_configured env0))))
            (OpenAICompatible "https://api.openai.com/v1" "openai" "sk" "gpt") _).
  vm_compute. reflexivity.
Defined.

(** A key without its model name: the 400 check passes, every cycle fails
    to resolve a provider, and the answer is still 200. *)
Lemma handler_preconditions_witness :
  ∃ db',
    handler (always (Return 2)) envKeyOnly post db0
    = (Return (mkResponse 200 (Processed (length (findManyLinks db0 7)))), db')
    ∧ ((∃ e, getAIModel envKeyOnly = Throw e) → db' = db0).
Proof.
  refine (proj2 (proj2 (handler_preconditions (always (Return 2)) envKeyOnly post db0 7 true
                          _ _ _)) _ _);
    vm_compute; reflexivity.
Defined.

Lemma handler_processed_witness :
  handler (failing_on "https://example.org/fail" 2) env0 post db0
  = (Return (mkResponse 200 (Processed (length (findManyLinks db0 7)))),
     storeAfter (failing_on "https://example.org/fail" 2) env0 (User.mk 7 true) db0
       (findManyLinks db0 7)).
Proof.
  refine (proj1 (handler_processed (failing_on "https://example.org/fail" 2) env0 post db0 7
                   _ _ _ _));
    vm_compute; reflexivity.
Defined.

(** Link 10 comes third in the batch, has an empty name and a short
    description: its block holds the description twice. *)
Lemma handler_context_repeats_description_witness :
  JS.occurs_in
    ("React job posting at a startup" +:+ JS.nl +:+ "React job posting at a startup")
    (condensedContent (loaded 10 jobLink recipes) (contextOf jobLink)).
Proof.
  refine (proj2 (proj2 (proj2 (proj2 (proj2 (proj2
            (handler_context_repeats_description
               (failing_on "https://example.org/fail" 2) env0 db0 7
               [(11, soupLink); (13, failLink)] [] 10 jobLink recipes
               "React job posting at a startup" _ _ _ _)))))) _).
  - vm_compute. reflexivity.
  - vm_compute. reflexivity.
  - reflexivity.
  - discriminate.
  - vm_compute. lia.
Defined.

(** * Further properties of the sources *)

(** ** [ensureValidURL] *)

Lemma dropTrailingSlash_slash (s : string) : JS.dropTrailingSlash (s +:+ "/") = s.
Proof.
  induction s as [|c s IH]; [reflexivity |].
  rewrite app_string_cons. simpl JS.dropTrailingSlash.
  destruct (s +:+ "/") as [|c' s'] eqn:Happ.
  - destruct s; discriminate.
  - by rewrite IH.
Qed.

Lemma dropTrailingSlash_none (s : string) :
  endsWithSlash s = false → JS.dropTrailingSlash s = s.
Proof.
  induction s as [|c s IH]; intros Hno; [reflexivity |].
  simpl in *. destruct s as [|c' s'].
  - by rewrite Hno.
  - by rewrite IH.
Qed.

Lemma dropLeadingSlash_none (s : string) :
  startsWithSlash s = false → JS.dropLeadingSlash s = s.
Proof. destruct s as [|c s]; simpl; intros Hno; [reflexivity | by rewrite Hno]. Qed.

Lemma endsWithSlash_dropTrailingSlash (s : string) :
  endsWithSlash s = true → JS.dropTrailingSlash s +:+ "/" = s.
Proof.
  induction s as [|c s IH]; intros Hend; [done |].
  simpl in *. destruct s as [|c' s'].
  - rewrite Hend. apply Ascii.eqb_eq in Hend. by subst c.
  - rewrite app_string_cons. by rewrite IH.
Qed.

(** X1: the join removes exactly one slash on each side: whatever [base]
    and [path] are, a base written with one more trailing slash and a path
    written with one more leading slash are joined by a single slash, and
    of two trailing slashes one stays. *)
Theorem ensureValidURL_one_slash_each_side (base path : string) :
  ensureValidURL (base +:+ "/") ("/" +:+ path) = base +:+ "/" +:+ path
  ∧ ensureValidURL (base +:+ "/" +:+ "/") path
    = (base +:+ "/") +:+ "/" +:+ JS.dropLeadingSlash path.
Proof.
  unfold ensureValidURL. split.
  - by rewrite dropTrailingSlash_slash.
  - by rewrite <- (app_string_assoc base "/" "/"), dropTrailingSlash_slash.
Qed.

(** X2: for a base that does not end in a slash and a path that does not
    start with one, the four spellings (base with or without a trailing
    slash, path with or without a leading slash) give the same URL,
    [base/path]. *)
Theorem ensureValidURL_spellings (base path : string) :
  endsWithSlash base = false → startsWithSlash path = false →
  ensureValidURL base path = base +:+ "/" +:+ path
  ∧ ensureValidURL (base +:+ "/") path = base +:+ "/" +:+ path
  ∧ ensureValidURL base ("/" +:+ path) = base +:+ "/" +:+ path
  ∧ ensureValidURL (base +:+ "/") ("/" +:+ path) = base +:+ "/" +:+ path.
Proof.
  intros Hbase Hpath. unfold ensureValidURL.
  rewrite dropTrailingSlash_slash, (dropTrailingSlash_none base Hbase),
    (dropLeadingSlash_none path Hpath).
  repeat split; reflexivity.
Qed.

Lemma ensureValidURL_spellings_witness :
  ensureValidURL "http://localhost:11434" "api" = "http://localhost:11434/api"
  ∧ ensureValidURL "http://localhost:11434/" "api" = "http://localhost:11434/api"
  ∧ ensureValidURL "http://localhost:11434" "/api" = "http://localhost:11434/api"
  ∧ ensureValidURL "http://localhost:11434/" "/api" = "http://localhost:11434/api".
Proof.
  apply (ensureValidURL_spellings "http://localhost:11434" "api"); reflexivity.
Defined.

(** X3: the URL is as long as the base, the path and one joining slash,
    less one for a trailing slash of the base and one for a leading slash of
    the path: nothing else is dropped or added. *)
Theorem ensureValidURL_length (base path : string) :
  String.length (ensureValidURL base path)
  = (String.length base - (if endsWithSlash base then 1 else 0)
     + 1
     + (String.length path - (if startsWithSlash path then 1 else 0)))%nat.
Proof.
  unfold ensureValidURL. rewrite !length_app_string. simpl String.length.
  assert (Hb : String.length (JS.dropTrailingSlash base)
               = (String.length base - (if endsWithSlash base then 1 else 0))%nat).
  { destruct (endsWithSlash base) eqn:Hend.
    - rewrite <- (endsWithSlash_dropTrailingSlash base Hend) at 2.
      rewrite length_app_string. simpl. lia.
    - rewrite dropTrailingSlash_none by done. lia. }
  assert (Hp : String.length (JS.dropLeadingSlash path)
               = (String.length path - (if startsWithSlash path then 1 else 0))%nat).
  { destruct path as [|c p]; [reflexivity |]. simpl.
    destruct (Ascii.eqb c "/"); simpl; lia. }
  rewrite Hb, Hp. lia.
Qed.

(** ** [getAIModel] and the variables it reads *)

Lemma set_in_empty_value (env : Env) (k n : string) :
  set_in (<[k := ""]> env) n = set_in (delete k env) n.
Proof.
  unfold set_in. destruct (decide (k = n)) as [<- | Hne].
  - by rewrite lookup_insert_eq, lookup_delete_eq.
  - by rewrite lookup_insert_ne, lookup_delete_ne.
Qed.

Lemma value_of_empty_value (env : Env) (k n : string) :
  value_of (<[k := ""]> env) n = value_of (delete k env) n.
Proof.
  unfold value_of. destruct (decide (k = n)) as [<- | Hne].
  - by rewrite lookup_insert_eq, lookup_delete_eq.
  - by rewrite lookup_insert_ne, lookup_delete_ne.
Qed.

Lemma or_else_empty_value (env : Env) (k n d : string) :
  JS.or_else (<[k := ""]> env !! n) d = JS.or_else (delete k env !! n) d.
Proof.
  destruct (decide (k = n)) as [<- | Hne].
  - by rewrite lookup_insert_eq, lookup_delete_eq.
  - by rewrite lookup_insert_ne, lookup_delete_ne.
Qed.

(** X4: a variable set to the empty string counts as a variable that is not
    set, for the provider probe and for the batch endpoint's 400 check. *)
Theorem empty_value_is_unset (env : Env) (k : string) :
  getAIModel (<[k := ""]> env) = getAIModel (delete k env)
  ∧ anyProviderKey (<[k := ""]> env) = anyProviderKey (delete k env).
Proof.
  unfold getAIModel, anyProviderKey.
  by rewrite !set_in_empty_value, !value_of_empty_value, !or_else_empty_value.
Qed.

(** X5: the probe reads fifteen variables and nothing else: two
    environments that agree on them resolve to the same handle or fail
    alike, and pass or fail the batch endpoint's 400 check alike. *)
Theorem getAIModel_reads (env env' : Env) :
  Forall (λ n, env !! n = env' !! n) providerVariables →
  getAIModel env = getAIModel env' ∧ anyProviderKey env = anyProviderKey env'.
Proof.
  intros Hagree. unfold providerVariables in Hagree.
  repeat match goal with
         | H : Forall _ (_ :: _) |- _ => apply Forall_cons in H as [? H]
         end.
  unfold getAIModel, anyProviderKey, set_in, value_of.
  repeat match goal with H : env !! _ = env' !! _ |- _ => rewrite H; clear H end.
  done.
Qed.

Lemma getAIModel_reads_witness :
  getAIModel (<["HOME" := "/root"]> Scenario.env0) = getAIModel Scenario.env0
  ∧ anyProviderKey (<["HOME" := "/root"]> Scenario.env0) = anyProviderKey Scenario.env0.
Proof.
  apply (getAIModel_reads (<["HOME" := "/root"]> Scenario.env0) Scenario.env0).
  vm_compute. repeat constructor.
Defined.

(** ** What a cycle writes and what it leaves alone *)

Lemma row_evolves_refl (db : DB) (owner : Z) (l : Link.t) : row_evolves db owner l l.
Proof. unfold row_evolves. repeat split; auto. Qed.

Lemma evolves_refl (owner : Z) (db : DB) : evolves owner db db.
Proof.
  split; [done |]. split; [done |]. intros j.
  destruct (links db !! j) as [l|]; [| done]. exists l. split; [done |].
  apply row_evolves_refl.
Qed.

Lemma evolves_trans (owner : Z) (db1 db2 db3 : DB) :
  evolves owner db1 db2 → evolves owner db2 db3 → evolves owner db1 db3.
Proof.
  intros (Hu12 & Hc12 & Hl12) (Hu23 & Hc23 & Hl23).
  split; [congruence |]. split; [congruence |]. intros j.
  specialize (Hl12 j). specialize (Hl23 j).
  destruct (links db1 !! j) as [l1|].
  - destruct Hl12 as (l2 & Hl2 & Hurl & Hname & Hdesc & Htext & Hkeep & Hlatch & Hcol).
    rewrite Hl2 in Hl23.
    destruct Hl23 as (l3 & Hl3 & Hurl' & Hname' & Hdesc' & Htext' & Hkeep' & Hlatch' & Hcol').
    exists l3. split; [done |]. unfold row_evolves.
    split; [congruence |]. split; [congruence |]. split; [congruence |].
    split; [congruence |]. split; [| split].
    + intros Hon. rewrite <- (Hkeep Hon). apply Hkeep'. by rewrite (Hkeep Hon).
    + destruct Hlatch' as [-> | Hon]; [exact Hlatch | by right].
    + destruct Hcol' as [Hsame | (c & Hc & Hown)].
      * rewrite Hsame. exact Hcol.
      * right. exists c. by rewrite <- Hc12.
  - by rewrite Hl12 in Hl23.
Qed.

Lemma run_evolves
    (generateObject : LanguageModelV1 → string → Completion Z) (env : Env)
    (db : DB) (user : User.t) (linkId : Z) (context : AssignmentContext) :
  evolves (User.id user) db
    (autoAssignCollection generateObject env db user linkId context).2.
Proof.
  destruct (run_cases generateObject env db user linkId context)
    as [[Hrun _] | [(e & l0 & Hrun & _) | (l & c & object & Hen & Hl & Hc & Hlatch & Hcands & Hreply)]].
  - rewrite Hrun. apply evolves_refl.
  - rewrite Hrun. apply evolves_refl.
  - rewrite (run_commit _ _ _ _ _ _ _ _ _ Hen Hl Hc Hlatch Hcands Hreply).
    split; [done |]. split; [done |]. intros j. simpl.
    destruct (decide (linkId = j)) as [<- | Hne].
    + rewrite Hl, lookup_insert_eq. eexists. split; [done |].
      unfold row_evolves. simpl.
      split; [done |]. split; [done |]. split; [done |]. split; [done |].
      split; [by rewrite Hlatch |]. split; [by right |].
      unfold chosenId. change (Loaded.link (loaded linkId l c)) with l.
      destruct (decide (object ∈ allowedIds (findManyCollections db (User.id user))))
        as [Hin | Hout]; [right | by left].
      by apply elem_of_candidate_ids, elem_of_allowedIds.
    + rewrite lookup_insert_ne by done.
      destruct (links db !! j) as [l'|]; [| done].
      exists l'. split; [done |]. apply row_evolves_refl.
Qed.

(** X6: whatever a cycle does, for whatever Link id, it leaves the users
    and the collections as they are, creates and deletes no Link, keeps
    every Link's URL, name, description and text, never touches a latched
    Link, changes a Link only by latching it, and puts it nowhere but in a
    collection of the requesting user. *)
Theorem autoAssignCollection_evolves
    (generateObject : LanguageModelV1 → string → Completion Z) (env : Env)
    (db : DB) (user : User.t) (linkId : Z) (context : AssignmentContext) :
  evolves (User.id user) db
    (autoAssignCollection generateObject env db user linkId context).2.
Proof. apply run_evolves. Qed.

(** X7: the store changes exactly when a collection id is returned: after
    [undefined] or an error the store is the one before, and after a
    returned id the Link is stored latched in the returned collection, which
    is a different store. *)
Theorem autoAssignCollection_result_and_store
    (generateObject : LanguageModelV1 → string → Completion Z) (env : Env)
    (db : DB) (user : User.t) (linkId : Z) (context : AssignmentContext) :
  let result := autoAssignCollection generateObject env db user linkId context in
  (result.2 ≠ db ↔ ∃ id, result.1 = Return (Some id))
  ∧ (∀ id, result.1 = Return (Some id) →
       ∃ l', links result.2 !! linkId = Some l'
             ∧ Link.collectionId l' = id ∧ Link.aiCollectionAssigned l' = true).
Proof.
  intros result. unfold result.
  destruct (run_cases generateObject env db user linkId context)
    as [[Hrun _] | [(e & l0 & Hrun & _) | (l & c & object & Hen & Hl & Hc & Hlatch & Hcands & Hreply)]].
  - rewrite Hrun. simpl. split; [| done]. split; [done | by intros [id Hid]].
  - rewrite Hrun. simpl. split; [| done]. split; [done | by intros [id Hid]].
  - rewrite (run_commit _ _ _ _ _ _ _ _ _ Hen Hl Hc Hlatch Hcands Hreply). simpl.
    split.
    + split; [eauto |]. intros _ Heq.
      apply (f_equal (λ d, links d !! linkId)) in Heq. simpl in Heq.
      rewrite lookup_insert_eq, Hl in Heq. injection Heq as Heq.
      apply (f_equal Link.aiCollectionAssigned) in Heq. simpl in Heq. congruence.
    + intros id [= <-]. eexists. split; [apply lookup_insert_eq | done].
Qed.

Lemma autoAssignCollection_result_and_store_witness :
  ∃ l', links (autoAssignCollection (always (Return 2)) env0 db0 user7 10 noContext).2 !! 10
        = Some l'
        ∧ Link.collectionId l' = 2 ∧ Link.aiCollectionAssigned l' = true.
Proof.
  refine (proj2 (autoAssignCollection_result_and_store (always (Return 2)) env0 db0 user7 10
                   noContext) 2 _).
  vm_compute. reflexivity.
Defined.

(** ** What a batch writes and what it leaves alone *)

Lemma storeAfter_app (generateObject : LanguageModelV1 → string → Completion Z) (env : Env)
    (user : User.t) (db : DB) (rows rows' : list (Z * Link.t)) :
  storeAfter generateObject env user db (rows ++ rows')
  = storeAfter generateObject env user (storeAfter generateObject env user db rows) rows'.
Proof. unfold storeAfter. apply foldl_app. Qed.

Lemma storeAfter_evolves (generateObject : LanguageModelV1 → string → Completion Z)
    (env : Env) (user : User.t) (db : DB) (rows : list (Z * Link.t)) :
  evolves (User.id user) db (storeAfter generateObject env user db rows).
Proof.
  induction rows as [|row rows IH] using rev_ind; [apply evolves_refl |].
  rewrite storeAfter_snoc. eapply evolves_trans; [exact IH | apply run_evolves].
Qed.

(** Every way the handler can end. *)
Lemma handler_cases (generateObject : LanguageModelV1 → string → Completion Z) (env : Env)
    (req : Request) (db : DB) :
  (∃ r, handler generateObject env req db = (Return r, db)
        ∧ (status r = 405 ∨ status r = 401 ∨ status r = 404 ∨ status r = 400)
        ∧ ∃ message, body r = Message message)
  ∨ (∃ userId,
        method req = "POST" ∧ verifyToken req = inr userId
        ∧ users db !! userId = Some true ∧ anyProviderKey env = true
        ∧ handler generateObject env req db
          = (Return (mkResponse 200 (Processed (length (findManyLinks db userId)))),
             storeAfter generateObject env (User.mk userId true) db
               (findManyLinks db userId))).
Proof.
  destruct (String.eqb (method req) "POST") eqn:Hm; cycle 1.
  { left. eexists. unfold handler. rewrite Hm. simpl. eauto 10. }
  apply String.eqb_eq in Hm.
  destruct (verifyToken req) as [message | userId] eqn:Htok.
  { left. eexists. unfold handler. rewrite Hm, Htok. simpl. eauto 10. }
  destruct (users db !! userId) as [enabled|] eqn:Huser; cycle 1.
  { left. eexists. unfold handler, findUniqueUser. rewrite Hm, Htok, Huser. simpl. eauto 10. }
  destruct enabled; cycle 1.
  { left. eexists. unfold handler, findUniqueUser. rewrite Hm, Htok, Huser. simpl. eauto 10. }
  destruct (anyProviderKey env) eqn:Hkey; cycle 1.
  { left. eexists. unfold handler, findUniqueUser. rewrite Hm, Htok, Huser, Hkey. simpl.
    eauto 10. }
  right. exists userId. repeat (split; [done |]). by apply handler_runs.
Qed.

(** X11: the HTTP answer does not depend on the model: two endpoints that
    reply differently, or fail differently, get the same status and the
    same body for the same request on the same store. *)
Theorem handler_answer_hides_model
    (generateObject generateObject' : LanguageModelV1 → string → Completion Z) (env : Env)
    (req : Request) (db : DB) :
  (handler generateObject env req db).1 = (handler generateObject' env req db).1.
Proof.
  unfold handler.
  destruct (negb (String.eqb (method req) "POST")); [done |].
  destruct (verifyToken req) as [refusal | tokenId]; [done |].
  destruct (findUniqueUser db tokenId) as [user|]; [| done].
  destruct (negb (User.aiCollectionsEnabled user)); [done |].
  destruct (negb (anyProviderKey env)); [done |].
  rewrite !assignEach_counts by (intros row; apply findManyLinks_present).
  done.
Qed.

Lemma eligible_selected (db : DB) (owner j : Z) (l : Link.t) :
  (j, l) ∈ findManyLinks db owner →
  links db !! j = Some l ∧ eligible db owner (j, l) = true.
Proof.
  intros (Hl & Hlatch & c & Hc & Hown)%elem_of_findManyLinks. simpl in *.
  split; [done |]. unfold eligible. simpl. rewrite Hc, Hlatch, Hown.
  by rewrite bool_decide_eq_true_2.
Qed.

Lemma not_selected (db : DB) (owner j : Z) (l : Link.t) :
  links db !! j = Some l → eligible db owner (j, l) = false →
  j ∉ (findManyLinks db owner).*1.
Proof.
  intros Hl Hnot ([j' l'] & -> & Hin)%list_elem_of_fmap. simpl in *.
  apply eligible_selected in Hin as [Hl' Hel]. congruence.
Qed.

(** X12: a batch keeps what every cycle keeps: after any call of the
    handler the users and the collections are the same, no Link appeared or
    disappeared, every Link has its URL, name, description and text, a Link
    that was latched is the same row, a Link that differs is latched, and a
    Link's collection is the one it had or a collection of the token's
    user. *)
Theorem handler_evolves
    (generateObject : LanguageModelV1 → string → Completion Z) (env : Env)
    (req : Request) (db : DB) (owner : Z) :
  (∀ userId, verifyToken req = inr userId → userId = owner) →
  evolves owner db (handler generateObject env req db).2.
Proof.
  intros Howner.
  destruct (handler_cases generateObject env req db)
    as [(r & Hr & _) | (userId & _ & Htok & _ & _ & Hr)].
  - rewrite Hr. apply evolves_refl.
  - rewrite Hr. simpl. rewrite <- (Howner userId Htok).
    apply (storeAfter_evolves generateObject env (User.mk userId true)).
Qed.

Lemma handler_evolves_witness :
  evolves 7 db0 (handler (always (Return 2)) env0 post db0).2.
Proof.
  apply (handler_evolves (always (Return 2)) env0 post db0 7).
  intros userId Htok. injection Htok as <-. reflexivity.
Defined.

(** X13: a batch touches only Links it selected: a Link that is already
    latched, or that sits in a collection of another user (or in none), is
    the same row after the call, whatever the model answers. *)
Theorem handler_leaves_other_links
    (generateObject : LanguageModelV1 → string → Completion Z) (env : Env)
    (req : Request) (db : DB) (userId j : Z) (l : Link.t) :
  verifyToken req = inr userId →
  links db !! j = Some l → eligible db userId (j, l) = false →
  links (handler generateObject env req db).2 !! j = Some l.
Proof.
  intros Htok Hl Hnot.
  destruct (handler_cases generateObject env req db)
    as [(r & Hr & _) | (userId' & _ & Htok' & _ & _ & Hr)].
  - by rewrite Hr.
  - assert (userId' = userId) as -> by congruence.
    rewrite Hr. simpl.
    destruct (storeAfter_frame generateObject env (User.mk userId true) db
                (findManyLinks db userId)) as [_ Hframe].
    rewrite Hframe; [done |]. by eapply not_selected.
Qed.

Lemma handler_leaves_other_links_witness :
  links (handler (always (Return 2)) env0 post db0).2 !! 12 = Some elseLink.
Proof.
  apply (handler_leaves_other_links (always (Return 2)) env0 post db0 7 12 elseLink);
    vm_compute; reflexivity.
Defined.

(** ** The candidate set *)

Lemma findManyCollections_nonempty (db : DB) (owner k : Z) (c : Collection.t) :
  collections db !! k = Some c → Collection.ownerId c = owner →
  findManyCollections db owner ≠ [].
Proof.
  intros Hc Hown. unfold findManyCollections.
  assert (Hin : (k, c) ∈ owned_rows db owner) by (by apply elem_of_owned_rows).
  destruct (owned_rows db owner) as [|row rows]; [by apply elem_of_nil in Hin | done].
Qed.

(** X14: the candidate set is empty exactly when the user owns no
    collection, so the no-candidate exit of the resolver is taken for such
    users and for no others. *)
Theorem findManyCollections_empty_iff (db : DB) (owner : Z) :
  findManyCollections db owner = []
  ↔ ∀ k c, collections db !! k = Some c → Collection.ownerId c ≠ owner.
Proof.
  split.
  - intros Hempty k c Hc Hown. by eapply findManyCollections_nonempty.
  - intros Hnone. unfold findManyCollections.
    destruct (owned_rows db owner) as [|[k c] rows] eqn:Hrows; [done |].
    exfalso. apply (Hnone k c).
    + apply (elem_of_owned_rows db owner (k, c)). rewrite Hrows. left.
    + apply (elem_of_owned_rows db owner (k, c)). rewrite Hrows. left.
Qed.

Lemma owned_rows_NoDup (db : DB) (owner : Z) : NoDup (owned_rows db owner).*1.
Proof.
  unfold owned_rows. rewrite merge_sort_Permutation.
  apply sublist_NoDup with (map_to_list (collections db)).*1;
    [apply NoDup_fst_map_to_list |].
  apply fmap_sublist, sublist_filter.
Qed.

(** X15: no collection is offered twice, and a collection of the user is
    left out only when 25 are offered: with at most 25 collections the
    candidate ids are exactly the ids of the user's collections. *)
Theorem findManyCollections_ids (db : DB) (owner : Z) :
  NoDup (Candidate.id <$> findManyCollections db owner)
  ∧ (∀ k c, collections db !! k = Some c → Collection.ownerId c = owner →
        k ∈ Candidate.id <$> findManyCollections db owner
        ∨ length (findManyCollections db owner) = 25%nat).
Proof.
  split.
  - unfold findManyCollections. rewrite <- list_fmap_compose.
    apply sublist_NoDup with (owned_rows db owner).*1; [apply owned_rows_NoDup |].
    apply (fmap_sublist fst), sublist_take.
  - intros k c Hc Hown. unfold findManyCollections. rewrite length_fmap.
    destruct (decide (length (owned_rows db owner) ≤ 25)%nat) as [Hle | Hgt].
    + left. rewrite take_ge by done. rewrite <- list_fmap_compose.
      apply list_elem_of_fmap. exists (k, c). split; [done |].
      by apply elem_of_owned_rows.
    + right. rewrite length_take. lia.
Qed.

Lemma findManyCollections_ids_witness :
  1 ∈ Candidate.id <$> findManyCollections db0 7
  ∨ length (findManyCollections db0 7) = 25%nat.
Proof.
  refine (proj2 (findManyCollections_ids db0 7) 1 recipes _ _); vm_compute; reflexivity.
Defined.

(** ** A batch whose model calls all succeed *)

Section Progress.

Variable generateObject : LanguageModelV1 → string → Completion Z.
Variable env : Env.
Variable model : LanguageModelV1.

Hypothesis resolved : getAIModel env = Return model.
Hypothesis replies : ∀ prompt, ∃ object, generateObject model prompt = Return object.

Lemma classify_replies (prompt : string) :
  ∃ object, classify generateObject env prompt = Return object.
Proof. unfold classify. rewrite resolved. apply replies. Qed.

Lemma anyProviderKey_resolved : anyProviderKey env = true.
Proof.
  destruct (anyProviderKey env) eqn:Hkey; [done |].
  rewrite (anyProviderKey_needed env Hkey) in resolved. done.
Qed.

(** Each selected Link is latched once the loop has come to it. *)
Lemma storeAfter_latches (db : DB) (userId : Z) (row : Z * Link.t) :
  row ∈ findManyLinks db userId →
  ∃ l', links (storeAfter generateObject env (User.mk userId true) db
                 (findManyLinks db userId)) !! row.1 = Some l'
        ∧ Link.aiCollectionAssigned l' = true.
Proof.
  intros Hin. destruct row as [j l].
  destruct (list_elem_of_split _ _ Hin) as (pre & rest & Hsel).
  pose proof (elem_of_findManyLinks db userId (j, l) Hin)
    as (Hl & Hlatch & c & Hc & Hown). simpl in Hl, Hlatch, Hc.
  set (user := User.mk userId true).
  set (db1 := storeAfter generateObject env user db pre).
  assert (Hl1 : links db1 !! j = Some l).
  { destruct (storeAfter_frame generateObject env user db pre) as [_ Hframe].
    unfold db1. rewrite Hframe; [done |].
    pose proof (findManyLinks_NoDup db userId) as Hnd.
    rewrite Hsel, fmap_app, NoDup_app in Hnd. destruct Hnd as (_ & Hsep & _).
    intros Hpre. apply (Hsep j Hpre). simpl. left. }
  assert (Hc1 : collections db1 !! Link.collectionId l = Some c).
  { destruct (storeAfter_frame generateObject env user db pre) as [Hcs _].
    unfold db1. by rewrite Hcs. }
  assert (Hcands : findManyCollections db1 (User.id user) ≠ [])
    by (by eapply findManyCollections_nonempty).
  destruct (classify_replies
              (buildPrompt (loaded j l c) (findManyCollections db1 (User.id user))
                 (contextOf l))) as [object Hreply].
  pose proof (run_commit generateObject env db1 user j (contextOf l) l c object
                eq_refl Hl1 Hc1 Hlatch Hcands Hreply) as Hrun.
  simpl in Hrun.
  rewrite Hsel, storeAfter_app. fold db1.
  change ((j, l) :: rest) with ([(j, l)] ++ rest). rewrite storeAfter_app.
  set (db2 := storeAfter generateObject env user db1 [(j, l)]).
  assert (Hl2 : ∃ l2, links db2 !! j = Some l2 ∧ Link.aiCollectionAssigned l2 = true).
  { unfold db2, storeAfter. simpl foldl. rewrite Hrun. simpl.
    rewrite lookup_insert_eq. eauto. }
  destruct Hl2 as (l2 & Hl2 & Hlatch2).
  destruct (storeAfter_evolves generateObject env user db2 rest) as (_ & _ & Hrows).
  specialize (Hrows j). rewrite Hl2 in Hrows.
  destruct Hrows as (l3 & Hl3 & _ & _ & _ & _ & Hkeep & _).
  exists l3. simpl. split; [done |]. by rewrite (Hkeep Hlatch2).
Qed.

(** X16: when a provider is resolved and the model answers every prompt,
    a batch latches every Link it selected; so a batch that selected fewer
    than 50 Links leaves nothing to select, and the next call answers 200
    with a processed count of 0 and changes nothing. *)
Theorem handler_converges (req : Request) (db : DB) (userId : Z) :
  method req = "POST" → verifyToken req = inr userId →
  users db !! userId = Some true →
  let db' := (handler generateObject env req db).2 in
  (∀ row, row ∈ findManyLinks db userId →
      ∃ l', links db' !! row.1 = Some l' ∧ Link.aiCollectionAssigned l' = true)
  ∧ ((length (findManyLinks db userId) < 50)%nat →
     findManyLinks db' userId = []
     ∧ ∀ generateObject',
         handler generateObject' env req db'
         = (Return (mkResponse 200 (Processed 0)), db')).
Proof.
  intros Hm Htok Huser db'.
  assert (Hdb' : db' = storeAfter generateObject env (User.mk userId true) db
                         (findManyLinks db userId)).
  { unfold db'. by rewrite (handler_runs generateObject env req db userId Hm Htok Huser
                              anyProviderKey_resolved). }
  assert (Hlatched : ∀ row, row ∈ findManyLinks db userId →
            ∃ l', links db' !! row.1 = Some l' ∧ Link.aiCollectionAssigned l' = true).
  { intros row Hrow. rewrite Hdb'. by apply storeAfter_latches. }
  split; [exact Hlatched |]. intros Hfew.
  assert (Hev : evolves userId db db').
  { rewrite Hdb'. apply (storeAfter_evolves generateObject env (User.mk userId true)). }
  assert (Hnone : findManyLinks db' userId = []).
  { destruct (findManyLinks db' userId) as [|[j l'] rows'] eqn:Hsel'; [done |]. exfalso.
    assert (Hin' : (j, l') ∈ findManyLinks db' userId) by (rewrite Hsel'; left).
    apply eligible_selected in Hin' as [Hl' Hel'].
    destruct Hev as (_ & Hcols & Hrows). specialize (Hrows j).
    assert (Hlatch' : Link.aiCollectionAssigned l' = false).
    { unfold eligible in Hel'. simpl in Hel'.
      apply andb_true_iff in Hel' as [_ Hlatch']. by apply negb_true_iff in Hlatch'. }
    destruct (links db !! j) as [l|] eqn:Hl; [| congruence].
    destruct Hrows as (l'' & Hl'' & _ & _ & _ & _ & _ & Hsame & _).
    assert (l'' = l') as -> by congruence.
    destruct Hsame as [-> | Hon]; [| congruence].
    assert (Hel : eligible db userId (j, l) = true).
    { unfold eligible in *. simpl in *. by rewrite <- Hcols. }
    destruct (findManyLinks_complete db userId j l Hl Hel) as [Hin | Hfull]; [| lia].
    destruct (Hlatched (j, l) Hin) as (l3 & Hl3 & Hlatch3). simpl in Hl3. congruence. }
  split; [exact Hnone |]. intros generateObject'.
  assert (Husers : users db' !! userId = Some true).
  { destruct Hev as (Hu & _). by rewrite Hu. }
  rewrite (handler_runs generateObject' env req db' userId Hm Htok Husers
             anyProviderKey_resolved).
  by rewrite Hnone.
Qed.

End Progress.

Lemma handler_converges_witness :
  findManyLinks (handler (always (Return 2)) env0 post db0).2 7 = []
  ∧ handler (always (Throw "down")) env0 post (handler (always (Return 2)) env0 post db0).2
    = (Return (mkResponse 200 (Processed 0)), (handler (always (Return 2)) env0 post db0).2).
Proof.
  destruct (handler_converges (always (Return 2)) env0
              (OpenAICompatible "https://api.openai.com/v1" "openai" "sk" "gpt")
              eq_refl (λ prompt, ex_intro _ 2 eq_refl) post db0 7
              eq_refl eq_refl eq_refl) as [_ Hnext].
  destruct Hnext as [Hnone Hagain]; [vm_compute; lia |].
  split; [exact Hnone | exact (Hagain (always (Throw "down")))].
Defined.

(** ** The prompt *)

Lemma prefix_prefix (n m : nat) (s : string) :
  (n ≤ m)%nat → JS.prefix n (JS.prefix m s) = JS.prefix n s.
Proof.
  revert m s. induction n as [|n IH]; intros m s Hle; [by destruct m, s |].
  destruct m as [|m]; [lia |]. destruct s as [|c s]; [done |].
  simpl. rewrite IH; [done | lia].
Qed.

Lemma prefix_app_prefix (n m : nat) (x p : string) :
  (n ≤ m)%nat → JS.prefix n (x +:+ JS.prefix m p) = JS.prefix n (x +:+ p).
Proof.
  revert n. induction x as [|c x IH]; intros n Hle.
  - rewrite !app_string_empty_l. by apply prefix_prefix.
  - rewrite !app_string_cons. destruct n as [|n]; [done |].
    simpl. rewrite IH; [done | lia].
Qed.

Lemma kept_app (xs ys : list (option string)) : kept (xs ++ ys) = kept xs ++ kept ys.
Proof.
  induction xs as [|[[|c s]|] xs IH]; simpl; [done | done | by rewrite IH | done].
Qed.

Lemma join_snoc (sep p : string) (parts : list string) :
  JS.join sep (parts ++ [p])
  = match parts with
    | [] => p
    | _ => JS.join sep parts +:+ sep +:+ p
    end.
Proof.
  induction parts as [|q parts IH]; [done |].
  destruct parts as [|q' parts]; [done |].
  change (JS.join sep ((q :: q' :: parts) ++ [p]))
    with (q +:+ sep +:+ JS.join sep ((q' :: parts) ++ [p])).
  rewrite IH.
  change (JS.join sep (q :: q' :: parts)) with (q +:+ sep +:+ JS.join sep (q' :: parts)).
  by rewrite !app_string_assoc.
Qed.

Lemma prefix_empty_iff (n : nat) (s : string) :
  (0 < n)%nat → JS.truthy (JS.prefix n s) = JS.truthy s.
Proof. intros Hn. destruct n as [|n]; [lia |]. by destruct s. Qed.

(** X17: cutting the page text to 2000 code units before the call, as the
    batch endpoint does, changes nothing: the content block, and with it
    the whole prompt, is the one the full text would give. *)
Theorem pretruncation_is_harmless (link : Loaded.t) (collections : list Candidate.t)
    (row : Link.t) (meta text : option string) :
  condensedContent link (mkContext meta (JS.slice 0 2000 <$> text))
  = condensedContent link (mkContext meta text)
  ∧ buildPrompt link collections (contextOf row)
    = buildPrompt link collections
        (mkContext (Link.description row) (Link.textContent row)).
Proof.
  assert (Hblock : ∀ m t, condensedContent link (mkContext m (JS.slice 0 2000 <$> t))
                          = condensedContent link (mkContext m t)).
  { intros m t. rewrite !condensedContent_joined. cbn [metaDescription pageContent].
    unfold joinedContent.
    set (front := [Some (Link.name (Loaded.link link));
                   Link.description (Loaded.link link); m]).
    change [Some (Link.name (Loaded.link link)); Link.description (Loaded.link link); m;
            JS.slice 0 2000 <$> t] with (front ++ [JS.slice 0 2000 <$> t]).
    change [Some (Link.name (Loaded.link link)); Link.description (Loaded.link link); m; t]
      with (front ++ [t]).
    rewrite !kept_app.
    destruct t as [t|]; [| done].
    cbn [fmap option_fmap option_map]. rewrite slice_from_start by lia.
    change (Z.to_nat 2000) with 2000%nat.
    destruct t as [|c t]; [done |].
    change (kept [Some (JS.prefix 2000 (String c t))])
      with [String c (JS.prefix 1999 t)].
    change (kept [Some (String c t)]) with [String c t].
    rewrite !join_snoc.
    change (String c (JS.prefix 1999 t)) with (JS.prefix 2000 (String c t)).
    destruct (kept front) as [|q parts].
    - by apply prefix_prefix.
    - rewrite <- !app_string_assoc. by apply prefix_app_prefix. }
  split; [apply Hblock |].
  unfold buildPrompt, contextOf. by rewrite Hblock.
Qed.







(** ** The settings page *)



(** ** The Ollama endpoint *)

Lemma truthy_app (s a : string) : JS.truthy s = true → JS.truthy (s +:+ a) = true.
Proof. by destruct s. Qed.

(** X22: for the Ollama slot it does not matter whether the endpoint is
    configured with or without a trailing slash: both spellings resolve to
    the same handle, whose base URL is the endpoint, a slash and [api]; and
    they resolve alike when another slot wins or none is configured. *)
Theorem getAIModel_ollama_trailing_slash (env : Env) (endpoint : string) :
  JS.truthy endpoint = true → endsWithSlash endpoint = false →
  getAIModel (<["NEXT_PUBLIC_OLLAMA_ENDPOINT_URL" := endpoint +:+ "/"]> env)
  = getAIModel (<["NEXT_PUBLIC_OLLAMA_ENDPOINT_URL" := endpoint]> env)
  ∧ ∀ baseURL modelId flag,
      getAIModel (<["NEXT_PUBLIC_OLLAMA_ENDPOINT_URL" := endpoint]> env)
      = Return (Ollama baseURL modelId flag) →
      baseURL = endpoint +:+ "/" +:+ "api".
Proof.
  intros Hset Hend.
  assert (Hurl : ensureValidURL endpoint "api" = endpoint +:+ "/" +:+ "api").
  { unfold ensureValidURL. by rewrite dropTrailingSlash_none. }
  assert (Hurl' : ensureValidURL (endpoint +:+ "/") "api" = endpoint +:+ "/" +:+ "api").
  { unfold ensureValidURL. by rewrite dropTrailingSlash_slash. }
  unfold getAIModel, set_in, value_of.
  rewrite !lookup_insert_eq. rewrite !lookup_insert_ne by done.
  cbn [JS.truthy_opt default from_option id].
  rewrite (truthy_app endpoint "/" Hset), Hset, Hurl, Hurl'.
  split; [reflexivity |].
  intros baseURL modelId flag.
  repeat match goal with
         | |- context [if ?b then Return _ else _] =>
             destruct b; [intros [= <- <- <-] || (intros ?; discriminate) |]
         end; try done.
Qed.

Lemma getAIModel_ollama_trailing_slash_witness :
  getAIModel (<["NEXT_PUBLIC_OLLAMA_ENDPOINT_URL" := "http://localhost:11434" +:+ "/"]>
                (<["OLLAMA_MODEL" := "llama3"]> ∅))
  = getAIModel (<["NEXT_PUBLIC_OLLAMA_ENDPOINT_URL" := "http://localhost:11434"]>
                  (<["OLLAMA_MODEL" := "llama3"]> ∅)).
Proof.
  refine (proj1 (getAIModel_ollama_trailing_slash (<["OLLAMA_MODEL" := "llama3"]> ∅)
                   "http://localhost:11434" _ _)); reflexivity.
Defined.

(** Link 10 as it is stored, and as it would be under another id, latched
    and with a stored page text: the prompt is the same. *)
Lemma buildPrompt_reads_witness :
  buildPrompt (loaded 10 jobLink recipes) (findManyCollections db0 7) noContext
  = buildPrompt
      (Loaded.mk 99
         (Link.mk "https://example.org/jobs/42" "" (Some "React job posting at a startup")
            (Some "stored page text") 1 true)
         5 "Recipes")
      (findManyCollections db0 7) noContext.
Proof.
  apply (buildPrompt_reads (loaded 10 jobLink recipes)
           (Loaded.mk 99
              (Link.mk "https://example.org/jobs/42" "" (Some "React job posting at a startup")
                 (Some "stored page text") 1 true)
              5 "Recipes")
           (findManyCollections db0 7) noContext);
    reflexivity.
Defined.
